(** * Repository inspection pipeline of [repo_analyzer.py]

    A shallow embedding of [RepoAnalyzer._analyze_file_structure] and
    [RepoAnalyzer._analyze_code_metrics], together with the Python
    builtins and [os]/[os.path] functions they call, and the properties
    of the tree walker, the file classifier and the line metrics that
    follow from the code.

    Python [str] values are lists of characters; the characters are the
    code points below 256, on which [str.lower] and [str.isspace] are
    given exactly.  Python dictionaries are [gmap]s, unbounded integers
    are [nat] (counts) and [N] (byte sizes), and a raised exception is
    the [Raise] branch of [result]. *)

From Stdlib Require Import Ascii String DecimalString.
From stdpp Require Import gmap strings list fin_maps sorting.

Set Default Proof Using "Type".

(** ** Python strings *)

Abbreviation str := (list ascii).

(** A string literal of the source. *)
Definition lit (s : string) : str := list_ascii_of_string s.

Definition sep : ascii := "/"%char.
Definition extsep : ascii := "."%char.
Definition newline : ascii := "010"%char.

Module Py.

(** [c.isspace()]: the white space characters of the first 256 code
    points (TAB..CR, FS..US, SPACE, NEL, NBSP). *)
Definition isspace (c : ascii) : bool :=
  let n := nat_of_ascii c in
  ((9 <=? n) && (n <=? 13)) || ((28 <=? n) && (n <=? 32))
  || (n =? 133) || (n =? 160).

(** [s.lstrip()], [s.rstrip()] and [s.strip()] without argument. *)
Fixpoint lstrip (s : str) : str :=
  match s with
  | c :: s' => if isspace c then lstrip s' else s
  | [] => []
  end.

Definition rstrip (s : str) : str := reverse (lstrip (reverse s)).

Definition strip (s : str) : str := rstrip (lstrip s).

(** [s.startswith(p)] and [s.endswith(p)] for one string [p]. *)
Definition startswith (s p : str) : bool := bool_decide (p `prefix_of` s).
Definition endswith (s p : str) : bool := bool_decide (p `suffix_of` s).

(** [s.startswith(t)] and [s.endswith(t)] for a tuple [t] of strings. *)
Definition startswith_any (s : str) (t : list str) : bool :=
  existsb (startswith s) t.
Definition endswith_any (s : str) (t : list str) : bool :=
  existsb (endswith s) t.

(** [sub in s]: [sub] occurs in [s] as a contiguous substring. *)
Fixpoint contains (sub s : str) : bool :=
  startswith s sub ||
  match s with
  | [] => false
  | _ :: s' => contains sub s'
  end.

(** [c.lower()] on the first 256 code points: A-Z and the accented
    capitals U+00C0..U+00DE other than the multiplication sign move up
    by 32, every other character is fixed. *)
Definition lower_char (c : ascii) : ascii :=
  let n := nat_of_ascii c in
  if ((65 <=? n) && (n <=? 90))
     || ((192 <=? n) && (n <=? 222) && negb (n =? 215))
  then ascii_of_nat (n + 32) else c.

Definition lower (s : str) : str := lower_char <$> s.

(** [s.rfind(c)] for a one-character [c], the head of [s] having
    index [i]: the highest index holding [c], or [-1]. *)
Fixpoint rfind_from (i : Z) (s : str) (c : ascii) : Z :=
  match s with
  | [] => (-1)%Z
  | x :: s' =>
      let r := rfind_from (i + 1) s' c in
      if (0 <=? r)%Z then r
      else if decide (x = c) then i else (-1)%Z
  end.

Definition rfind (s : str) (c : ascii) : Z := rfind_from 0 s c.

(** The slices [s[:i]], [s[i:]] and the one-character slice
    [s[i:i+1]] for an index [0 <= i]. *)
Definition slice_to (s : str) (i : Z) : str := take (Z.to_nat i) s.
Definition slice_from (s : str) (i : Z) : str := drop (Z.to_nat i) s.
Definition slice1 (s : str) (i : Z) : str := take 1 (drop (Z.to_nat i) s).

(** [f.readlines()] on the decoded text of a file (newlines already
    translated to LF): the lines, each keeping its terminator. *)
Fixpoint readlines_go (cur : str) (s : str) : list str :=
  match s with
  | [] => match cur with [] => [] | _ => [reverse cur] end
  | c :: s' =>
      if decide (c = newline) then reverse (c :: cur) :: readlines_go [] s'
      else readlines_go (c :: cur) s'
  end.

Definition readlines (text : str) : list str := readlines_go [] text.

End Py.

(** ** [os.path] *)

Module OsPath.

(** [genericpath._splitext(p, sep, altsep=None, extsep)]: the loop
    runs [filenameIndex] over [range(sepIndex + 1, dotIndex)], here
    [n] indices starting at [filenameIndex], and returns at the first
    character that is not a dot. *)
Fixpoint splitext_loop (n : nat) (p : str) (filenameIndex dotIndex : Z)
  : option (str * str) :=
  match n with
  | O => None
  | S n' =>
      if decide (Py.slice1 p filenameIndex ≠ [extsep])
      then Some (Py.slice_to p dotIndex, Py.slice_from p dotIndex)
      else splitext_loop n' p (filenameIndex + 1) dotIndex
  end.

Definition splitext (p : str) : str * str :=
  let sepIndex := Py.rfind p sep in
  let dotIndex := Py.rfind p extsep in
  let fallthrough := (p, []) in
  if (sepIndex <? dotIndex)%Z then
    let filenameIndex := (sepIndex + 1)%Z in
    match splitext_loop (Z.to_nat (dotIndex - filenameIndex))
                        p filenameIndex dotIndex with
    | Some r => r
    | None => fallthrough
    end
  else fallthrough.

(** [posixpath.join(a, b)] with two arguments. *)
Definition join (a b : str) : str :=
  if Py.startswith b [sep] then b
  else if bool_decide (a = []) || Py.endswith a [sep] then a ++ b
  else a ++ sep :: b.

(** [os.path.relpath(root, top)] for a directory [root] that
    [os.walk(top)] yields: [root] is [top] followed by the names
    [comps] of the directories descended into, and the result is
    ["."] for [top] itself and otherwise the names separated by
    [sep]. *)
Fixpoint sep_join (comps : list str) : str :=
  match comps with
  | [] => []
  | [c] => c
  | c :: cs => c ++ sep :: sep_join cs
  end.

Definition relpath (comps : list str) : str :=
  match comps with
  | [] => lit "."
  | _ => sep_join comps
  end.

End OsPath.

(** ** The file classifier: [os.path.splitext(file)[1].lower()] *)

Definition classify (file : str) : str := Py.lower (OsPath.splitext file).2.

(** ** Line classification of [_analyze_code_metrics] *)

Definition comment_leads : list str :=
  lit <$> ["#"; "//"; "/*"; "*"; "*/"]%string.

(** Truth value of a string: [bool(s)] is [False] exactly for [""]. *)
Definition truthy (s : str) : bool := negb (bool_decide (s = [])).

(** The three conditions of the list comprehensions. *)
Definition is_code (l : str) : bool :=
  truthy (Py.strip l) && negb (Py.startswith_any (Py.strip l) comment_leads).
Definition is_comment (l : str) : bool :=
  Py.startswith_any (Py.strip l) comment_leads.
Definition is_blank (l : str) : bool :=
  negb (truthy (Py.strip l)).

Definition count_code (lines : list str) : nat := length (filter is_code lines).
Definition count_comment (lines : list str) : nat := length (filter is_comment lines).
Definition count_blank (lines : list str) : nat := length (filter is_blank lines).

(** ** Size buckets *)

Inductive Bucket := Small | Medium | Large.

Definition size_bucket (n : nat) : Bucket :=
  if n <? 100 then Small
  else if n <? 500 then Medium
  else Large.


(** ** The file system under the repository path *)

Inductive exn := OSError | UnicodeDecodeError.

Inductive result (A : Type) : Type :=
  | Ok (a : A)
  | Raise (e : exn).
Arguments Ok {A} a.
Arguments Raise {A} e.

(** Sequencing: an exception raised on the left is propagated. *)
Global Instance result_bind : MBind result := λ A B k r,
  match r with
  | Ok a => k a
  | Raise e => Raise e
  end.

(** A loop [for x in l: ...] whose body may raise. *)
Fixpoint for_each {A S} (body : S → A → result S) (s : S) (l : list A)
  : result S :=
  match l with
  | [] => Ok s
  | x :: l' => s' ← body s x; for_each body s' l'
  end.

(** A directory entry that [os.walk] lists in [files].  [f_size] is
    what [os.path.getsize] returns ([None]: it raises [OSError], as on
    a dangling symbolic link); [f_text] is the text that
    [open(.., 'r', encoding='utf-8')] and [readlines] decode, or the
    exception that one of them raises ([OSError] when the file cannot
    be opened, [UnicodeDecodeError] on bytes that are not UTF-8). *)
Record File := MkFile {
  f_name : str;
  f_size : option N;
  f_text : result str
}.

(** A directory that [os.scandir] can list: its non-directory entries
    and its subdirectories.  A subdirectory is either descended into
    ([SWalk]) or only listed ([SSkip]: a symbolic link to a directory,
    which [os.walk] does not follow, or a directory whose listing
    fails, an error that [os.walk] ignores). *)
Inductive Dir : Type :=
  | MkDir (files : list File) (subs : Subs)
with Subs : Type :=
  | SNil
  | SWalk (name : str) (d : Dir) (rest : Subs)
  | SSkip (name : str) (rest : Subs).

Scheme Dir_mut := Induction for Dir Sort Prop
  with Subs_mut := Induction for Subs Sort Prop.
Combined Scheme Dir_Subs_mut from Dir_mut, Subs_mut.

(** What the repository path names. *)
Inductive Node :=
  | Missing
  | NotADirectory
  | Directory (d : Dir).

Definition dir_files (d : Dir) : list File :=
  match d with MkDir files _ => files end.
Definition dir_subs (d : Dir) : Subs :=
  match d with MkDir _ subs => subs end.

Fixpoint sub_names (s : Subs) : list str :=
  match s with
  | SNil => []
  | SWalk name _ rest => name :: sub_names rest
  | SSkip name rest => name :: sub_names rest
  end.

(** ** [os.walk(top)], top-down, [onerror=None], [followlinks=False] *)

(** One yielded triple [(root, dirs, files)]; [root] is kept as the
    names below [top]. *)
Record Triple := MkTriple {
  t_root : list str;
  t_dirs : list str;
  t_files : list File
}.

Fixpoint walk_dir (root : list str) (d : Dir) : list Triple :=
  match d with
  | MkDir files subs =>
      MkTriple root (sub_names subs) files :: walk_subs root subs
  end
with walk_subs (root : list str) (s : Subs) : list Triple :=
  match s with
  | SNil => []
  | SWalk name d rest => walk_dir (root ++ [name]) d ++ walk_subs root rest
  | SSkip _ rest => walk_subs root rest
  end.

(** A failing [scandir(top)] is ignored: nothing is yielded. *)
Definition os_walk (top : Node) : list Triple :=
  match top with
  | Directory d => walk_dir [] d
  | Missing | NotADirectory => []
  end.

Definition getsize (f : File) : result N :=
  match f_size f with
  | Some n => Ok n
  | None => Raise OSError
  end.

Definition open_readlines (f : File) : result (list str) :=
  text ← f_text f; Ok (Py.readlines text).

(** ** [_analyze_file_structure] *)

Record DirInfo := MkDirInfo { file_count : nat; subdirectories : nat }.
Record FileInfo := MkFileInfo { size : N; extension : str }.

Record Structure := MkStructure {
  directories : gmap str DirInfo;
  files : gmap str FileInfo;
  file_types : gmap str nat;
  total_files : nat
}.

Definition empty_structure : Structure :=
  MkStructure ∅ ∅ ∅ 0.

(** [d.get(k, 0)] *)
Definition get0 (d : gmap str nat) (k : str) : nat := default 0 (d !! k).

(** The body of [for file in files]. *)
Definition record_file (rel_path : str) (structure : Structure) (file : File)
  : result Structure :=
  let ext := classify (f_name file) in
  let file_types' := <[ext := get0 (file_types structure) ext + 1]> (file_types structure) in
  let total_files' := total_files structure + 1 in
  let file_path := OsPath.join rel_path (f_name file) in
  sz ← getsize file;
  Ok (MkStructure (directories structure)
        (<[file_path := MkFileInfo sz ext]> (files structure))
        file_types' total_files').

Definition git : str := lit ".git".

(** The body of [for root, dirs, files in os.walk(repo_path)]. *)
Definition visit (structure : Structure) (t : Triple) : result Structure :=
  let rel_path := OsPath.relpath (t_root t) in
  if bool_decide (rel_path = lit ".") then Ok structure
  else if Py.contains git rel_path then Ok structure
  else
    let structure' :=
      MkStructure
        (<[rel_path := MkDirInfo (length (t_files t)) (length (t_dirs t))]>
           (directories structure))
        (files structure) (file_types structure) (total_files structure) in
    for_each (record_file rel_path) structure' (t_files t).

Definition _analyze_file_structure (repo_path : Node) : result Structure :=
  for_each visit empty_structure (os_walk repo_path).

(** ** [_analyze_code_metrics] *)

Record FileSizes := MkFileSizes { small : nat; medium : nat; large : nat }.

Record Metrics := MkMetrics {
  total_lines : nat;
  code_lines : nat;
  comment_lines : nat;
  blank_lines : nat;
  file_sizes : FileSizes
}.

Definition zero_metrics : Metrics := MkMetrics 0 0 0 0 (MkFileSizes 0 0 0).

Definition source_suffixes : list str :=
  lit <$> [".py"; ".js"; ".java"; ".cpp"; ".cs"; ".rb"; ".php"; ".go"]%string.

Definition bump (b : Bucket) (s : FileSizes) : FileSizes :=
  match b with
  | Small => MkFileSizes (small s + 1) (medium s) (large s)
  | Medium => MkFileSizes (small s) (medium s + 1) (large s)
  | Large => MkFileSizes (small s) (medium s) (large s + 1)
  end.

(** The statements under [with open(...) as f], once [lines] is read. *)
Definition add_lines (metrics : Metrics) (lines : list str) : Metrics :=
  MkMetrics
    (total_lines metrics + length lines)
    (code_lines metrics + count_code lines)
    (comment_lines metrics + count_comment lines)
    (blank_lines metrics + count_blank lines)
    (bump (size_bucket (length lines)) (file_sizes metrics)).

(** The body of the [try]. *)
Definition count_file (metrics : Metrics) (file : File) : result Metrics :=
  lines ← open_readlines file;
  Ok (add_lines metrics lines).

(** The body of [for file in files]: the suffix test, and
    [except Exception: continue] around the [try]. *)
Definition metrics_file (metrics : Metrics) (file : File) : Metrics :=
  if Py.endswith_any (f_name file) source_suffixes then
    match count_file metrics file with
    | Ok metrics' => metrics'
    | Raise _ => metrics
    end
  else metrics.

Definition metrics_triple (metrics : Metrics) (t : Triple) : Metrics :=
  foldl metrics_file metrics (t_files t).

Definition _analyze_code_metrics (repo_path : Node) : Metrics :=
  foldl metrics_triple zero_metrics (os_walk repo_path).


(** ** Vocabulary of the properties *)

(** Every file that [os.walk] lists, in the order of the walk. *)
Definition all_files (top : Node) : list File :=
  t ← os_walk top; t_files t.

(** The suffix test of the metrics pass. *)
Definition is_source (file : File) : bool :=
  Py.endswith_any (f_name file) source_suffixes.

(** The lines of a file that can be read, and no line otherwise. *)
Definition file_lines (file : File) : list str :=
  match f_text file with
  | Ok text => Py.readlines text
  | Raise _ => []
  end.

(** The files that the metrics pass counts: a source suffix, and a text
    that opens and decodes. *)
Definition readable (file : File) : bool :=
  match f_text file with
  | Ok _ => true
  | Raise _ => false
  end.

Definition counted_file (file : File) : bool :=
  is_source file && readable file.

Definition counted (top : Node) : list File :=
  filter counted_file (all_files top).

Definition bucket_count (b : Bucket) (s : FileSizes) : nat :=
  match b with
  | Small => small s
  | Medium => medium s
  | Large => large s
  end.

Global Instance Bucket_eq_dec : EqDecision Bucket.
Proof. solve_decision. Defined.

(** The extension as section 4.1 of the specification words it: the
    lowercase substring from the last dot of the name to its end, and
    the empty string when the name has no dot. *)
Definition classify_spec (file : str) : str :=
  let dotIndex := Py.rfind file extsep in
  if (0 <=? dotIndex)%Z then Py.lower (Py.slice_from file dotIndex) else [].

Definition is_dot (c : ascii) : bool := bool_decide (c = extsep).

(** The directory part before a file name: nothing, or a path ending
    in the separator. *)
Definition dir_prefix (pre : str) : Prop :=
  pre = [] ∨ ∃ d, pre = d ++ [sep].

(** The two guards of the tree walker: a triple passes when its
    relative path is not ["."] and does not contain [".git"]. *)
Definition excluded (rel_path : str) : bool :=
  bool_decide (rel_path = lit ".") || Py.contains git rel_path.

Definition rel_of (t : Triple) : str := OsPath.relpath (t_root t).

Definition listed (t : Triple) : bool := negb (excluded (rel_of t)).

(** The triples that reach the body of the walker's loop, and the files
    for which it emits a record. *)
Definition recorded (top : Node) : list Triple :=
  filter listed (os_walk top).

Definition walker_files (top : Node) : list File :=
  t ← recorded top; t_files t.

(** The directories that [os.walk] enters, each with its names below
    [top]. *)
Fixpoint entered_dir (root : list str) (d : Dir) : list (list str * Dir) :=
  match d with
  | MkDir _ subs => (root, d) :: entered_subs root subs
  end
with entered_subs (root : list str) (s : Subs) : list (list str * Dir) :=
  match s with
  | SNil => []
  | SWalk name d rest => entered_dir (root ++ [name]) d ++ entered_subs root rest
  | SSkip _ rest => entered_subs root rest
  end.

Definition entered (top : Node) : list (list str * Dir) :=
  match top with
  | Directory d => entered_dir [] d
  | Missing | NotADirectory => []
  end.

Definition triple_of (e : list str * Dir) : Triple :=
  MkTriple e.1 (sub_names (dir_subs e.2)) (dir_files e.2).

(** Names as a file system has them: not empty, not [.] or [..], free
    of the separator; and the entries of one directory have distinct
    names. *)
Definition valid_name (n : str) : bool :=
  negb (bool_decide (n = [])) && negb (bool_decide (n = lit "."))
  && negb (bool_decide (n = lit "..")) && negb (bool_decide (sep ∈ n)).

Fixpoint wf_dir (d : Dir) : bool :=
  match d with
  | MkDir files subs =>
      forallb valid_name (f_name <$> files)
      && forallb valid_name (sub_names subs)
      && bool_decide (NoDup (sub_names subs ++ (f_name <$> files)))
      && wf_subs subs
  end
with wf_subs (s : Subs) : bool :=
  match s with
  | SNil => true
  | SWalk _ d rest => wf_dir d && wf_subs rest
  | SSkip _ rest => wf_subs rest
  end.

Definition wf_node (top : Node) : bool :=
  match top with
  | Directory d => wf_dir d
  | Missing | NotADirectory => true
  end.

(** [os.path.getsize] succeeds on every file that the walker records. *)
Definition sizes_known (top : Node) : bool :=
  forallb (λ f, bool_decide (is_Some (f_size f))) (walker_files top).

Definition size_known (f : File) : Prop := is_Some (f_size f).

(** The walker's loop bodies when no [getsize] raises. *)
Definition record_file_ok (rel_path : str) (structure : Structure) (file : File)
  : Structure :=
  let ext := classify (f_name file) in
  MkStructure (directories structure)
    (<[OsPath.join rel_path (f_name file)
         := MkFileInfo (default 0%N (f_size file)) ext]> (files structure))
    (<[ext := get0 (file_types structure) ext + 1]> (file_types structure))
    (total_files structure + 1).

Definition visit_ok (structure : Structure) (t : Triple) : Structure :=
  foldl (record_file_ok (rel_of t))
    (MkStructure
       (<[rel_of t := MkDirInfo (length (t_files t)) (length (t_dirs t))]>
          (directories structure))
       (files structure) (file_types structure) (total_files structure))
    (t_files t).

(** Storing a list of key-value pairs in a dictionary, in order. *)
Definition store {V} (d : gmap str V) (kvs : list (str * V)) : gmap str V :=
  foldl (λ d kv, <[kv.1 := kv.2]> d) d kvs.

(** Counting a list of keys in a histogram, in order. *)
Definition tally (h : gmap str nat) (ks : list str) : gmap str nat :=
  foldl (λ h k, <[k := get0 h k + 1]> h) h ks.

Definition dir_entry (t : Triple) : str * DirInfo :=
  (rel_of t, MkDirInfo (length (t_files t)) (length (t_dirs t))).

Definition file_entry (rel_path : str) (f : File) : str * FileInfo :=
  (OsPath.join rel_path (f_name f),
   MkFileInfo (default 0%N (f_size f)) (classify (f_name f))).

Definition file_entries (t : Triple) : list (str * FileInfo) :=
  file_entry (rel_of t) <$> t_files t.

(** Example files and trees. *)

Definition file_main : File :=
  MkFile (lit "MAIN.PY") (Some 9%N) (Ok (lit "print(1)")).
Definition file_head : File :=
  MkFile (lit "HEAD") (Some 5%N) (Ok (lit "ref")).
Definition file_hook : File :=
  MkFile (lit "hook.py") (Some 2%N) (Ok (lit "x")).
Definition file_blob : File :=
  MkFile (lit "blob.py") (Some 4%N) (Raise UnicodeDecodeError).
Definition dir_src : Dir :=
  MkDir [file_main]
    (SWalk (lit ".git") (MkDir [file_head] SNil)
       (SWalk (lit "lib") (MkDir [] SNil) SNil)).

(** A root holding one file and no directory. *)
Definition tree_root_file : Node :=
  Directory
    (MkDir [MkFile (lit "README.md") (Some 12%N) (Ok (lit "# pie"))] SNil).

(** A root holding [.git/hook.py], a one-line source file. *)
Definition tree_git_hook : Node :=
  Directory (MkDir []
    (SWalk (lit ".git")
       (MkDir [file_hook] SNil)
       SNil)).

(** A root holding [src], which holds [MAIN.PY], a repository [.git]
    with a file, and an empty [lib]. *)
Definition tree_src : Node :=
  Directory (MkDir [] (SWalk (lit "src") dir_src SNil)).

(** ** Vocabulary of the further properties *)

(** The sum of a measure over the values of a dictionary. *)
Definition map_sum {V} (g : V → nat) (d : gmap str V) : nat :=
  map_fold (λ _ v acc, g v + acc) 0 d.

(** The root holding the one-line source file [hook.py] itself. *)
Definition tree_root_hook : Node := Directory (MkDir [file_hook] SNil).

(** Whether a text leaves a last line without terminator. *)
Definition dangling (text : str) : nat :=
  match last text with
  | Some c => if decide (c = newline) then 0 else 1
  | None => 0
  end.

(** A line as [readlines] returns it: a body free of newlines, then one
    newline, or, for the last line of a text that does not end in one,
    a body that is not empty. *)
Definition is_line (l : str) : Prop :=
  ∃ body, (newline ∉ body) ∧ (l = body ++ [newline] ∨ (l = body ∧ body ≠ [])).

(** The comment test read off the first characters of a line after its
    leading white space: [#] or [*], or [/] followed by [/] or [*]. *)
Definition comment_by_first_chars (l : str) : bool :=
  match Py.lstrip l with
  | c :: rest =>
      bool_decide (c = "#"%char) || bool_decide (c = "*"%char)
      || (bool_decide (c = "/"%char)
          && match rest with
             | c' :: _ => bool_decide (c' = "/"%char) || bool_decide (c' = "*"%char)
             | [] => false
             end)
  | [] => false
  end.

(** ** [_identify_technologies] *)

Record TechStack := MkTechStack {
  languages : gmap str str;
  frameworks : gmap str str;
  dependencies : gmap str str
}.

Definition config_files : list (str * str) :=
  [ (lit "package.json", lit "Node.js");
    (lit "requirements.txt", lit "Python");
    (lit "pom.xml", lit "Java/Maven");
    (lit "build.gradle", lit "Java/Gradle");
    (lit "Cargo.toml", lit "Rust");
    (lit "go.mod", lit "Go");
    (lit "Gemfile", lit "Ruby");
    (lit "composer.json", lit "PHP");
    (lit "Dockerfile", lit "Docker");
    (lit "docker-compose.yml", lit "Docker") ].

Definition detected : str := lit "detected".

(** The body of [for file, tech in config_files.items()]; [exists_ file]
    is the value of [(repo_path / file).exists()]. *)
Definition mark_technology (exists_ : str → bool) (tech_stack : TechStack)
    (entry : str * str) : TechStack :=
  if exists_ entry.1 then
    MkTechStack (<[entry.2 := detected]> (languages tech_stack))
      (frameworks tech_stack) (dependencies tech_stack)
  else tech_stack.

Definition _identify_technologies (exists_ : str → bool) : TechStack :=
  foldl (mark_technology exists_) (MkTechStack ∅ ∅ ∅) config_files.

(** [(repo_path / file).exists()] for a name [file] without separator:
    an entry of the root directory of that name whose [stat] succeeds,
    which it does not on a dangling symbolic link. *)
Definition path_exists (repo_path : Node) (file : str) : bool :=
  match repo_path with
  | Directory d =>
      bool_decide (file ∈ sub_names (dir_subs d))
      || existsb (λ f, bool_decide (f_name f = file)
                       && bool_decide (is_Some (f_size f))) (dir_files d)
  | Missing | NotADirectory => false
  end.

(** A root holding [package.json], and [src/requirements.txt]. *)
Definition tree_node_project : Node :=
  Directory (MkDir [MkFile (lit "package.json") (Some 2%N) (Ok (lit "{}"))]
    (SWalk (lit "src")
       (MkDir [MkFile (lit "requirements.txt") (Some 0%N) (Ok [])] SNil)
       SNil)).

(** ** The repository name of [analyze_repository] *)

(** [s.split(c)] for a one-character separator [c]. *)
Fixpoint split_go (c : ascii) (cur : str) (s : str) : list str :=
  match s with
  | [] => [reverse cur]
  | x :: s' =>
      if decide (x = c) then reverse cur :: split_go c [] s'
      else split_go c (x :: cur) s'
  end.

Definition split (s : str) (c : ascii) : list str := split_go c [] s.

(** [s.replace(old, new)] for a non-empty [old]: the occurrences of
    [old] are found from the left and do not overlap; [skip] counts the
    characters of an occurrence that remain to be passed over. *)
Fixpoint replace_go (old new : str) (skip : nat) (s : str) : str :=
  match s with
  | [] => []
  | x :: s' =>
      match skip with
      | S k => replace_go old new k s'
      | O =>
          if Py.startswith s old
          then new ++ replace_go old new (length old - 1) s'
          else x :: replace_go old new 0 s'
      end
  end.

Definition replace (s old new : str) : str := replace_go old new 0 s.

(** [repo_url.split("/")[-1].replace(".git", "")] *)
Definition repo_name (repo_url : str) : str :=
  replace (default [] (last (split repo_url sep))) git [].

(** ** [_format_directory_structure] *)

(** [str(n)] for a non-negative integer. *)
Definition str_of_nat (n : nat) : str :=
  list_ascii_of_string (NilZero.string_of_uint (Nat.to_uint n)).

(** [a <= b] on strings: the order of the code points, a proper prefix
    coming first. *)
Fixpoint str_leb (a b : str) : bool :=
  match a, b with
  | [], _ => true
  | _ :: _, [] => false
  | x :: a', y :: b' =>
      if nat_of_ascii x <? nat_of_ascii y then true
      else if nat_of_ascii y <? nat_of_ascii x then false
      else str_leb a' b'
  end.

(** The order in which [sorted] puts the items of a dictionary: that of
    their keys, which are distinct. *)
Definition key_le (x y : str * DirInfo) : Prop := str_leb x.1 y.1.

Global Instance key_le_dec : RelDecision key_le.
Proof. intros x y. unfold key_le. apply _. Defined.

(** [sorted(directories.items())] *)
Definition sorted_items (directories : gmap str DirInfo)
  : list (str * DirInfo) :=
  merge_sort key_le (map_to_list directories).

(** The three lines added to [result] for one directory. *)
Definition render_entry (item : str * DirInfo) : str :=
  lit "- **" ++ item.1 ++ lit "**" ++ [newline]
  ++ lit "  - Files: " ++ str_of_nat (file_count item.2) ++ [newline]
  ++ lit "  - Subdirectories: " ++ str_of_nat (subdirectories item.2)
  ++ [newline].

Definition _format_directory_structure (directories : gmap str DirInfo) : str :=
  foldl (λ result item, result ++ render_entry item) []
    (sorted_items directories).


Ltac find_elem :=
  cbn; repeat first [apply list_elem_of_here | apply list_elem_of_further].

(** * Properties *)

(** ** Strings *)

Lemma rfind_from_notin i s c : c ∉ s → Py.rfind_from i s c = (-1)%Z.
Proof.
  revert i. induction s as [|x s IH]; intros i Hc; [done|].
  apply not_elem_of_cons in Hc as [Hx Hs]. simpl.
  rewrite (IH _ Hs). simpl. by rewrite decide_False.
Qed.

Lemma rfind_from_last i stem e c :
  c ∉ e → (0 ≤ i)%Z →
  Py.rfind_from i (stem ++ c :: e) c = (i + Z.of_nat (length stem))%Z.
Proof.
  intros He. revert i. induction stem as [|x stem IH]; intros i Hi; simpl.
  - rewrite (rfind_from_notin _ _ _ He). simpl.
    rewrite decide_True by done. lia.
  - rewrite IH by lia.
    destruct (Z.leb_spec 0 (i + 1 + Z.of_nat (length stem))); lia.
Qed.

Lemma rfind_notin s c : c ∉ s → Py.rfind s c = (-1)%Z.
Proof. apply rfind_from_notin. Qed.

Lemma rfind_last stem e c :
  c ∉ e → Py.rfind (stem ++ c :: e) c = Z.of_nat (length stem).
Proof. intros He. unfold Py.rfind. rewrite rfind_from_last; [lia|done|lia]. Qed.

Lemma splitext_loop_spec pre rest tl dotIndex :
  OsPath.splitext_loop (length rest) (pre ++ rest ++ tl)
    (Z.of_nat (length pre)) dotIndex
  = if forallb is_dot rest then None
    else Some (Py.slice_to (pre ++ rest ++ tl) dotIndex,
               Py.slice_from (pre ++ rest ++ tl) dotIndex).
Proof.
  revert pre. induction rest as [|x rest IH]; intros pre; [done|].
  cbn [length OsPath.splitext_loop forallb].
  unfold Py.slice1. rewrite Nat2Z.id, drop_app_length. cbn [app take].
  specialize (IH (pre ++ [x])). rewrite length_app in IH. cbn [length] in IH.
  rewrite <-(assoc_L (++)) in IH. cbn [app] in IH.
  replace (Z.of_nat (length pre) + 1)%Z with (Z.of_nat (length pre + 1)) by lia.
  unfold is_dot at 1. destruct (decide (x = extsep)) as [Hx|Hx].
  - rewrite decide_False by (intros H; apply H; by rewrite Hx).
    rewrite bool_decide_eq_true_2 by done. cbn [andb]. apply IH.
  - rewrite decide_True by congruence.
    by rewrite bool_decide_eq_false_2.
Qed.

Lemma rfind_from_app_notin i d tl c :
  c ∉ tl → Py.rfind_from i (d ++ tl) c = Py.rfind_from i d c.
Proof.
  intros Hc. revert i. induction d as [|x d IH]; intros i; simpl.
  - by apply rfind_from_notin.
  - by rewrite IH.
Qed.

Lemma rfind_from_lt i s c :
  (0 ≤ i)%Z → (Py.rfind_from i s c < i + Z.of_nat (length s))%Z.
Proof.
  revert i. induction s as [|x s IH]; intros i Hi; simpl; [lia|].
  specialize (IH (i + 1)%Z).
  destruct (Z.leb_spec 0 (Py.rfind_from (i + 1) s c)); [lia|].
  destruct (decide (x = c)); lia.
Qed.

Lemma forallb_is_dot_existsb s :
  existsb (λ c, negb (is_dot c)) s = negb (forallb is_dot s).
Proof.
  induction s as [|x s IH]; [done|]. simpl. rewrite IH.
  by destruct (is_dot x), (forallb is_dot s).
Qed.

Lemma rfind_sep_prefix pre base :
  dir_prefix pre → sep ∉ base →
  Py.rfind (pre ++ base) sep = (Z.of_nat (length pre) - 1)%Z.
Proof.
  intros [->|[d ->]] Hbase.
  - simpl. by rewrite rfind_notin.
  - rewrite <-(assoc_L (++)). cbn [app]. rewrite rfind_last by done.
    rewrite length_app. simpl. lia.
Qed.

Lemma splitext_dotted pre stem e :
  dir_prefix pre → sep ∉ stem ++ e → extsep ∉ e →
  (OsPath.splitext (pre ++ stem ++ extsep :: e)).2
  = if forallb is_dot stem then [] else extsep :: e.
Proof.
  intros Hpre Hsep He. unfold OsPath.splitext.
  rewrite (rfind_sep_prefix pre (stem ++ extsep :: e) Hpre).
  2:{ apply not_elem_of_app in Hsep as [??].
      rewrite not_elem_of_app, not_elem_of_cons. by repeat split. }
  rewrite (assoc_L (++) pre stem), rfind_last, length_app by done.
  destruct (Z.ltb_spec (Z.of_nat (length pre) - 1)
              (Z.of_nat (length pre + length stem))); [|lia].
  replace (Z.to_nat _) with (length stem) by lia.
  replace (Z.of_nat (length pre) - 1 + 1)%Z with (Z.of_nat (length pre)) by lia.
  rewrite <-(assoc_L (++) pre stem), splitext_loop_spec.
  destruct (forallb is_dot stem); [done|]. cbn [snd].
  unfold Py.slice_from. rewrite Nat2Z.id, (assoc_L (++) pre stem).
  by rewrite <-length_app, drop_app_length.
Qed.

Lemma splitext_nodot pre base :
  dir_prefix pre → sep ∉ base → extsep ∉ base →
  (OsPath.splitext (pre ++ base)).2 = [].
Proof.
  intros Hpre Hsep Hdot. unfold OsPath.splitext.
  rewrite (rfind_sep_prefix pre base Hpre Hsep).
  unfold Py.rfind at 1. rewrite rfind_from_app_notin by done.
  destruct Hpre as [->|[d ->]].
  - simpl. done.
  - rewrite rfind_from_app_notin
      by (unfold extsep, sep; by intros ?%list_elem_of_singleton).
    pose proof (rfind_from_lt 0 d extsep). rewrite length_app. simpl.
    destruct (Z.ltb_spec (Z.of_nat (length d + 1) - 1) (Py.rfind_from 0 d extsep));
      [lia|done].
Qed.

Lemma splitext_dotted_bare stem e :
  sep ∉ stem ++ e → extsep ∉ e →
  (OsPath.splitext (stem ++ extsep :: e)).2
  = if forallb is_dot stem then [] else extsep :: e.
Proof. intros. apply (splitext_dotted [] stem e); [by left|done..]. Qed.

Lemma splitext_nodot_bare base :
  sep ∉ base → extsep ∉ base → (OsPath.splitext base).2 = [].
Proof. intros. apply (splitext_nodot [] base); [by left|done..]. Qed.

Lemma last_occurrence (c : ascii) (s : str) :
  c ∈ s → ∃ stem e, s = stem ++ c :: e ∧ c ∉ e.
Proof. apply list_elem_of_split_r. Qed.

Lemma not_elem_of_app_cons_drop (c x : ascii) (stem e : str) :
  c ∉ stem ++ x :: e → c ∉ stem ++ e.
Proof.
  rewrite !not_elem_of_app, not_elem_of_cons. intros (? & _ & ?). by split.
Qed.

(** The extension depends on the last component of a path only, and is
    given by the last dot of that component unless nothing but dots
    comes before it. *)
Lemma classify_path pre base :
  dir_prefix pre → sep ∉ base → classify (pre ++ base) = classify base.
Proof.
  intros Hpre Hsep. unfold classify. f_equal.
  destruct (decide (extsep ∈ base)) as [Hin|Hnin].
  - destruct (last_occurrence _ _ Hin) as (stem & e & -> & He).
    apply not_elem_of_app_cons_drop in Hsep.
    by rewrite splitext_dotted, splitext_dotted_bare.
  - by rewrite splitext_nodot, splitext_nodot_bare.
Qed.

Lemma classify_dotted stem e :
  sep ∉ stem ++ e → extsep ∉ e →
  classify (stem ++ extsep :: e)
  = if forallb is_dot stem then [] else Py.lower (extsep :: e).
Proof.
  intros Hsep He. unfold classify. rewrite splitext_dotted_bare by done.
  by destruct (forallb is_dot stem).
Qed.

Lemma classify_nodot name : sep ∉ name → extsep ∉ name → classify name = [].
Proof.
  intros Hsep Hdot. unfold classify. by rewrite splitext_nodot_bare.
Qed.

(** C8, as amended.  The classifier is a total function, and on a file
    name (a path component, so free of the separator) it returns the
    lowercase substring from the last dot to the end only when some
    character other than a dot comes before that dot; it returns the
    empty string when the name has no dot, or has nothing but dots before
    its last dot, as in [.gitignore].  On a path it returns the extension
    of the last component. *)
Theorem C8_classify_last_dot_unless_leading (name : str) (Hbare : sep ∉ name) :
  classify name
  = (if existsb (λ c, negb (is_dot c))
          (Py.slice_to name (Py.rfind name extsep))
     then classify_spec name else [])
  ∧ (∀ pre, dir_prefix pre → classify (pre ++ name) = classify name).
Proof.
  split; [|intros pre Hpre; by apply classify_path].
  unfold classify_spec. destruct (decide (extsep ∈ name)) as [Hin|Hnin].
  - destruct (last_occurrence _ _ Hin) as (stem & e & -> & He).
    apply not_elem_of_app_cons_drop in Hbare.
    rewrite classify_dotted, rfind_last by done.
    unfold Py.slice_to, Py.slice_from. rewrite Nat2Z.id, take_app_length, drop_app_length.
    rewrite forallb_is_dot_existsb.
    destruct (Z.leb_spec 0 (Z.of_nat (length stem))); [|lia].
    by destruct (forallb is_dot stem).
  - by rewrite classify_nodot, rfind_notin.
Qed.

Lemma C8_classify_last_dot_unless_leading_witness :
  classify (lit "Makefile.AM") = lit ".am"
  ∧ classify (lit "src/.gitignore") = classify (lit ".gitignore").
Proof.
  assert (Hbare1 : sep ∉ lit "Makefile.AM") by (apply (bool_decide_eq_false_1 _); reflexivity).
  assert (Hbare2 : sep ∉ lit ".gitignore") by (apply (bool_decide_eq_false_1 _); reflexivity).
  split.
  - exact (proj1 (C8_classify_last_dot_unless_leading (lit "Makefile.AM") Hbare1)).
  - apply (proj2 (C8_classify_last_dot_unless_leading (lit ".gitignore") Hbare2) (lit "src/")).
    right. by exists (lit "src").
Defined.

(** C8 as stated fails: the whole name [.gitignore] begins at its last
    dot, yet the classifier returns the empty string for it. *)
Lemma C8_counterexample :
  classify (lit ".gitignore") = []
  ∧ classify_spec (lit ".gitignore") = lit ".gitignore"
  ∧ classify (lit ".gitignore") ≠ classify_spec (lit ".gitignore").
Proof. by vm_compute. Qed.

(** ** Line metrics *)

Lemma length_filter_cons (p : str → bool) (x : str) (l : list str) :
  length (filter p (x :: l)) = Nat.b2n (p x) + length (filter p l).
Proof. rewrite filter_cons. by destruct (p x). Qed.

(** Each line falls in exactly one of the three classes. *)
Lemma line_class_exclusive (l : str) :
  Nat.b2n (is_blank l) + Nat.b2n (is_comment l) + Nat.b2n (is_code l) = 1.
Proof.
  unfold is_blank, is_comment, is_code, truthy.
  destruct (Py.strip l) as [|c s]; [reflexivity|].
  rewrite bool_decide_eq_false_2 by done.
  by destruct (Py.startswith_any (c :: s) comment_leads).
Qed.

Lemma count_partition (lines : list str) :
  length lines = count_code lines + count_comment lines + count_blank lines.
Proof.
  unfold count_code, count_comment, count_blank.
  induction lines as [|l lines IH]; [done|].
  rewrite !length_filter_cons. pose proof (line_class_exclusive l).
  simpl. lia.
Qed.

Lemma metrics_file_counted m f :
  counted_file f = true → metrics_file m f = add_lines m (file_lines f).
Proof.
  unfold counted_file, metrics_file, is_source, count_file, open_readlines, file_lines.
  unfold readable. intros [-> Hr]%andb_true_iff.
  by destruct (f_text f).
Qed.

Lemma metrics_file_skipped m f :
  counted_file f = false → metrics_file m f = m.
Proof.
  unfold counted_file, metrics_file, is_source, count_file, open_readlines.
  unfold readable. intros [->|Htext]%andb_false_iff; [done|].
  destruct (Py.endswith_any _ _); [|done].
  by destruct (f_text f).
Qed.

Lemma foldl_metrics_file fs m :
  foldl metrics_file m fs
  = foldl add_lines m (file_lines <$> filter counted_file fs).
Proof.
  revert m. induction fs as [|f fs IH]; intros m; [done|].
  rewrite filter_cons. cbn [foldl]. rewrite IH.
  destruct (counted_file f) eqn:Hf; simpl.
  - by rewrite metrics_file_counted.
  - by rewrite metrics_file_skipped.
Qed.

Lemma foldl_metrics_triple ts m :
  foldl metrics_triple m ts = foldl metrics_file m (t ← ts; t_files t).
Proof.
  revert m. induction ts as [|t ts IH]; intros m; [done|].
  cbn [foldl mbind list_bind]. by rewrite foldl_app, IH.
Qed.

(** The metrics pass folds the per-file update over the counted files. *)
Lemma analyze_code_metrics_counted top :
  _analyze_code_metrics top
  = foldl add_lines zero_metrics (file_lines <$> counted top).
Proof.
  unfold _analyze_code_metrics, counted, all_files.
  by rewrite foldl_metrics_triple, foldl_metrics_file.
Qed.

Lemma foldl_add_lines_totals (ls : list (list str)) m :
  let m' := foldl add_lines m ls in
  total_lines m' = total_lines m + sum_list_with length ls
  ∧ code_lines m' = code_lines m + sum_list_with count_code ls
  ∧ comment_lines m' = comment_lines m + sum_list_with count_comment ls
  ∧ blank_lines m' = blank_lines m + sum_list_with count_blank ls.
Proof.
  revert m. induction ls as [|l ls IH]; intros m; simpl; [lia|].
  destruct (IH (add_lines m l)) as (-> & -> & -> & ->). simpl. lia.
Qed.

Lemma foldl_add_lines_buckets (ls : list (list str)) m b :
  bucket_count b (file_sizes (foldl add_lines m ls))
  = bucket_count b (file_sizes m)
    + length (filter (λ l, size_bucket (length l) = b) ls).
Proof.
  revert m. induction ls as [|l ls IH]; intros m; simpl; [lia|].
  rewrite IH, filter_cons. simpl.
  destruct (decide (size_bucket (length l) = b)) as [<-|Hne]; simpl.
  - destruct (size_bucket (length l)); simpl; lia.
  - destruct (size_bucket (length l)), b; simpl; try lia; done.
Qed.

Lemma sum_list_with_fmap {A B} (g : A → B) (h : B → nat) (l : list A) :
  sum_list_with h (g <$> l) = sum_list_with (h ∘ g) l.
Proof. induction l as [|x l IH]; [done|]. rewrite fmap_cons. simpl. by rewrite IH. Qed.

(** C1.  Every line is in exactly one of the classes blank, comment and
    code, so the line count of a file is the sum of its three class
    counts; and the totals that the metrics pass returns are the sums
    of the per-file counts over the counted files, hence satisfy the
    same identity. *)
Theorem C1_line_classes_partition_and_totals_are_sums :
  (∀ l : str,
     Nat.b2n (is_blank l) + Nat.b2n (is_comment l) + Nat.b2n (is_code l) = 1)
  ∧ (∀ lines : list str,
       length lines = count_code lines + count_comment lines + count_blank lines)
  ∧ (∀ top : Node,
       let metrics := _analyze_code_metrics top in
       total_lines metrics
         = sum_list_with (λ f, length (file_lines f)) (counted top)
       ∧ code_lines metrics
         = sum_list_with (λ f, count_code (file_lines f)) (counted top)
       ∧ comment_lines metrics
         = sum_list_with (λ f, count_comment (file_lines f)) (counted top)
       ∧ blank_lines metrics
         = sum_list_with (λ f, count_blank (file_lines f)) (counted top)
       ∧ total_lines metrics
         = code_lines metrics + comment_lines metrics + blank_lines metrics).
Proof.
  split; [apply line_class_exclusive|]. split; [apply count_partition|].
  intros top metrics. subst metrics. rewrite analyze_code_metrics_counted.
  destruct (foldl_add_lines_totals (file_lines <$> counted top) zero_metrics)
    as (-> & -> & -> & ->).
  rewrite !sum_list_with_fmap. simpl. repeat split; try done.
  induction (counted top) as [|f fs IH]; [done|]. simpl.
  pose proof (count_partition (file_lines f)). lia.
Qed.

(** The scenario of a file [a.py] with a comment, a blank line and a
    statement. *)
Example metrics_of_a_py :
  _analyze_code_metrics
    (Directory
       (MkDir [MkFile (lit "a.py") (Some 21%N)
                 (Ok (lit "# comment" ++ newline :: newline
                        :: lit "print(1)" ++ [newline]))] SNil))
  = MkMetrics 3 1 1 1 (MkFileSizes 1 0 0).
Proof. reflexivity. Qed.

Example lines_of_text :
  Py.readlines (lit "a" ++ newline :: lit " b " ++ newline :: lit "c")
  = [lit "a" ++ [newline]; lit " b " ++ [newline]; lit "c"].
Proof. reflexivity. Qed.

(** ** Size buckets *)

(** C4.  A file of fewer than 100 lines is small, of 100 to 499 lines
    medium, of 500 lines or more large, and the counter of that bucket,
    and no other, goes up by one when the file is counted. *)
Theorem C4_size_bucket_boundaries :
  (∀ n, (size_bucket n = Small ↔ n < 100)
        ∧ (size_bucket n = Medium ↔ 100 ≤ n < 500)
        ∧ (size_bucket n = Large ↔ 500 ≤ n))
  ∧ size_bucket 99 = Small ∧ size_bucket 100 = Medium
  ∧ size_bucket 499 = Medium ∧ size_bucket 500 = Large
  ∧ (∀ metrics lines b,
       bucket_count b (file_sizes (add_lines metrics lines))
       = bucket_count b (file_sizes metrics)
         + (if decide (size_bucket (length lines) = b) then 1 else 0)).
Proof.
  split.
  { intros n. unfold size_bucket.
    destruct (Nat.ltb_spec n 100), (Nat.ltb_spec n 500);
      repeat split; intros; try done; try lia. }
  repeat split; try reflexivity.
  intros metrics lines b. unfold add_lines. cbn [file_sizes].
  destruct (size_bucket (length lines)), b; simpl; lia.
Qed.

(** ** Selection of the files to count *)










(** [MAIN.PY] is in the histogram under [.py] and in no metric. *)
Example main_py_in_histogram_only :
  ∃ structure,
    _analyze_file_structure tree_src = Ok structure
    ∧ get0 (file_types structure) (lit ".py") = 1
    ∧ _analyze_code_metrics tree_src = zero_metrics.
Proof. eexists. split; [reflexivity|]. split; reflexivity. Qed.

(** ** Files that cannot be read *)

(** C6.  For a file whose opening or decoding raises an exception, the
    body of the [try] raises it before any metric is updated and the
    handler goes on with the metrics unchanged: the file counts for nothing wherever it
    is listed, it is not among the counted files of any tree, and a
    tree holding this file alone has all metrics zero. *)
Theorem C6_unreadable_file_skipped (file : File) (e : exn)
    (Hbad : f_text file = Raise e) :
  (∀ metrics, count_file metrics file = Raise e)
  ∧ (∀ metrics, metrics_file metrics file = metrics)
  ∧ (∀ metrics before after,
       foldl metrics_file metrics (before ++ file :: after)
       = foldl metrics_file metrics (before ++ after))
  ∧ (∀ top, file ∉ counted top)
  ∧ _analyze_code_metrics (Directory (MkDir [file] SNil)) = zero_metrics.
Proof.
  assert (Hskip : ∀ metrics, metrics_file metrics file = metrics).
  { intros metrics. apply metrics_file_skipped. unfold counted_file, readable.
    rewrite Hbad. apply andb_false_r. }
  split; [|split; [done|split; [|split]]].
  - intros metrics. unfold count_file, open_readlines. by rewrite Hbad.
  - intros metrics before after. rewrite !foldl_app. cbn [foldl].
    by rewrite Hskip.
  - intros top [Hc _]%list_elem_of_filter. unfold counted_file, readable in Hc.
    rewrite Hbad, andb_false_r in Hc. done.
  - unfold _analyze_code_metrics. cbn. unfold metrics_triple. cbn.
    apply Hskip.
Qed.

Lemma C6_unreadable_file_skipped_witness :
  _analyze_code_metrics
    (Directory (MkDir [file_blob] SNil))
  = zero_metrics.
Proof.
  exact (proj2 (proj2 (proj2 (proj2
    (C6_unreadable_file_skipped file_blob UnicodeDecodeError eq_refl))))).
Defined.

(** ** A repository path that is not a directory *)

(** C7, as amended.  When the repository path does not exist or is not
    a directory, the walk yields nothing and the tree walker returns
    the empty structure: no exception is raised. *)
Theorem C7_walk_of_non_directory_is_empty (repo_path : Node)
    (Hnodir : repo_path = Missing ∨ repo_path = NotADirectory) :
  os_walk repo_path = []
  ∧ _analyze_file_structure repo_path = Ok empty_structure.
Proof. by destruct Hnodir as [-> | ->]. Qed.

Lemma C7_walk_of_non_directory_is_empty_witness :
  _analyze_file_structure Missing = Ok empty_structure.
Proof.
  exact (proj2 (C7_walk_of_non_directory_is_empty Missing (or_introl eq_refl))).
Defined.

(** C7 as stated fails: no exception is raised for a path that does not
    exist. *)
Lemma C7_counterexample :
  ¬ (∀ repo_path, repo_path = Missing ∨ repo_path = NotADirectory →
       ∃ e, _analyze_file_structure repo_path = Raise e).
Proof. intros H. destruct (H Missing) as [e He]; [by left|]. discriminate He. Qed.

(** ** Dictionaries filled by a loop *)

Lemma store_app {V} (d : gmap str V) kvs1 kvs2 :
  store d (kvs1 ++ kvs2) = store (store d kvs1) kvs2.
Proof. apply foldl_app. Qed.

Lemma store_cons {V} (d : gmap str V) k v kvs :
  store d ((k, v) :: kvs) = store (<[k:=v]> d) kvs.
Proof. done. Qed.

Lemma tally_cons (h : gmap str nat) k ks :
  tally h (k :: ks) = tally (<[k := get0 h k + 1]> h) ks.
Proof. done. Qed.

Lemma store_lookup_notin {V} (d : gmap str V) kvs k :
  k ∉ kvs.*1 → store d kvs !! k = d !! k.
Proof.
  revert d. induction kvs as [|[k' v'] kvs IH]; intros d Hk; [done|].
  rewrite fmap_cons in Hk. apply not_elem_of_cons in Hk as [Hne Hk].
  rewrite store_cons, IH by done. by rewrite lookup_insert_ne.
Qed.

Lemma store_lookup_in {V} (d : gmap str V) kvs k v :
  NoDup kvs.*1 → (k, v) ∈ kvs → store d kvs !! k = Some v.
Proof.
  revert d. induction kvs as [|[k' v'] kvs IH]; intros d Hnd Hin.
  { by apply elem_of_nil in Hin. }
  rewrite fmap_cons in Hnd. apply NoDup_cons in Hnd as [Hk' Hnd].
  rewrite store_cons. apply elem_of_cons in Hin as [Heq|Hin].
  - injection Heq as -> ->. rewrite store_lookup_notin by done.
    by rewrite lookup_insert_eq.
  - by apply IH.
Qed.

Lemma store_lookup_inv {V} (d : gmap str V) kvs k v :
  store d kvs !! k = Some v → d !! k = Some v ∨ (k, v) ∈ kvs.
Proof.
  revert d. induction kvs as [|[k' v'] kvs IH]; intros d H; [by left|].
  rewrite store_cons in H. apply IH in H as [H|H].
  - destruct (decide (k' = k)) as [->|Hne].
    + rewrite lookup_insert_eq in H. injection H as ->. right. left.
    + rewrite lookup_insert_ne in H by done. by left.
  - right. by right.
Qed.

Lemma tally_get0 (h : gmap str nat) ks k :
  get0 (tally h ks) k = get0 h k + length (filter (λ k', k' = k) ks).
Proof.
  revert h. induction ks as [|k' ks IH]; intros h; [simpl; lia|].
  rewrite tally_cons, IH, filter_cons. unfold get0 at 1.
  destruct (decide (k' = k)) as [->|Hne].
  - rewrite lookup_insert_eq. simpl. lia.
  - rewrite lookup_insert_ne by done. by unfold get0.
Qed.

(** ** The tree walker when no [getsize] raises *)

Lemma record_file_known rel st f :
  size_known f → record_file rel st f = Ok (record_file_ok rel st f).
Proof. intros [sz Hsz]. unfold record_file, record_file_ok, getsize. by rewrite Hsz. Qed.

Lemma for_each_record_file rel st fs :
  Forall size_known fs →
  for_each (record_file rel) st fs = Ok (foldl (record_file_ok rel) st fs).
Proof.
  intros Hfs. revert st. induction Hfs as [|f fs Hf _ IH]; intros st; [done|].
  cbn [for_each foldl]. rewrite record_file_known by done. apply IH.
Qed.

Lemma visit_unlisted st t : listed t = false → visit st t = Ok st.
Proof.
  unfold listed, excluded, visit, rel_of.
  intros [H|H]%negb_false_iff%orb_true_iff; rewrite H; [done|].
  by destruct (bool_decide _).
Qed.

Lemma visit_listed st t :
  listed t = true → Forall size_known (t_files t) →
  visit st t = Ok (visit_ok st t).
Proof.
  unfold listed, excluded, visit, visit_ok, rel_of.
  intros [-> ->]%negb_true_iff%orb_false_iff Hfs.
  by apply for_each_record_file.
Qed.

Lemma for_each_visit st ts :
  Forall size_known (t ← filter listed ts; t_files t) →
  for_each visit st ts = Ok (foldl visit_ok st (filter listed ts)).
Proof.
  revert st. induction ts as [|t ts IH]; intros st Hfs; [done|].
  rewrite filter_cons in *. cbn [for_each]. destruct (listed t) eqn:Ht; simpl in *.
  - apply Forall_app in Hfs as [Ht' Hfs]. rewrite visit_listed by done.
    by apply IH.
  - rewrite visit_unlisted by done. by apply IH.
Qed.

Lemma analyze_file_structure_ok top :
  sizes_known top = true →
  _analyze_file_structure top
  = Ok (foldl visit_ok empty_structure (recorded top)).
Proof.
  intros Hsz. apply for_each_visit. apply Forall_forall. intros f Hf.
  unfold sizes_known in Hsz. rewrite forallb_forall in Hsz.
  apply (bool_decide_eq_true_1 _), Hsz, list_elem_of_In, Hf.
Qed.

Lemma foldl_record_file_ok rel fs st :
  let st' := foldl (record_file_ok rel) st fs in
  directories st' = directories st
  ∧ files st' = store (files st) (file_entry rel <$> fs)
  ∧ file_types st' = tally (file_types st) ((λ f, classify (f_name f)) <$> fs)
  ∧ total_files st' = total_files st + length fs.
Proof.
  revert st. induction fs as [|f fs IH]; intros st; simpl; [auto with lia|].
  destruct (IH (record_file_ok rel st f)) as (-> & -> & -> & ->).
  simpl. repeat split. lia.
Qed.

Lemma foldl_visit_ok ts st :
  let st' := foldl visit_ok st ts in
  directories st' = store (directories st) (dir_entry <$> ts)
  ∧ files st' = store (files st) (t ← ts; file_entries t)
  ∧ file_types st'
    = tally (file_types st) ((λ f, classify (f_name f)) <$> (t ← ts; t_files t))
  ∧ total_files st'
    = total_files st + sum_list_with (λ t, length (t_files t)) ts.
Proof.
  revert st. induction ts as [|t ts IH]; intros st; simpl; [auto with lia|].
  destruct (IH (visit_ok st t)) as (-> & -> & -> & ->).
  unfold visit_ok.
  destruct (foldl_record_file_ok (rel_of t) (t_files t)
    (MkStructure
       (<[rel_of t := MkDirInfo (length (t_files t)) (length (t_dirs t))]>
          (directories st))
       (files st) (file_types st) (total_files st))) as (-> & -> & -> & ->).
  simpl. rewrite fmap_app. unfold store, tally, file_entries.
  rewrite !foldl_app. repeat split. lia.
Qed.

(** ** The directories that the walk enters *)

Lemma walk_entered :
  (∀ d root, walk_dir root d = triple_of <$> entered_dir root d)
  ∧ (∀ s root, walk_subs root s = triple_of <$> entered_subs root s).
Proof.
  apply (Dir_Subs_mut
    (λ d, ∀ root, walk_dir root d = triple_of <$> entered_dir root d)
    (λ s, ∀ root, walk_subs root s = triple_of <$> entered_subs root s)).
  - intros files subs IH root. cbn [walk_dir entered_dir].
    by rewrite fmap_cons, IH.
  - done.
  - intros name d IHd rest IHr root. cbn [walk_subs entered_subs].
    by rewrite fmap_app, IHd, IHr.
  - intros name rest IHr root. apply IHr.
Qed.

Lemma os_walk_entered top : os_walk top = triple_of <$> entered top.
Proof. destruct top; [done..|]. apply walk_entered. Qed.

Lemma entered_prefix :
  (∀ d root e, e ∈ entered_dir root d → root `prefix_of` e.1)
  ∧ (∀ s root e, e ∈ entered_subs root s →
       ∃ name, name ∈ sub_names s ∧ (root ++ [name]) `prefix_of` e.1).
Proof.
  apply (Dir_Subs_mut
    (λ d, ∀ root e, e ∈ entered_dir root d → root `prefix_of` e.1)
    (λ s, ∀ root e, e ∈ entered_subs root s →
       ∃ name, name ∈ sub_names s ∧ (root ++ [name]) `prefix_of` e.1)).
  - intros files subs IH root e. cbn [entered_dir].
    intros [->|He]%elem_of_cons; [done|].
    destruct (IH _ _ He) as (name & _ & Hpre).
    etrans; [|done]. by apply prefix_app_r.
  - intros root e He. by apply elem_of_nil in He.
  - intros name d IHd rest IHr root e. cbn [entered_subs sub_names].
    intros [He|He]%elem_of_app.
    + exists name. split; [left|]. by apply IHd.
    + destruct (IHr _ _ He) as (name' & Hin & Hpre).
      exists name'. split; [by right|done].
  - intros name rest IHr root e He. cbn [entered_subs sub_names] in *.
    destruct (IHr _ _ He) as (name' & Hin & Hpre).
    exists name'. split; [by right|done].
Qed.

Lemma snoc_prefix_same {A} (root : list A) (x y : A) (l : list A) :
  (root ++ [x]) `prefix_of` l → (root ++ [y]) `prefix_of` l → x = y.
Proof.
  intros [k1 ->] [k2 H]. rewrite <-!(assoc_L (++)) in H.
  apply (inj (app root)) in H. by injection H.
Qed.

Lemma wf_dir_unfold files subs :
  wf_dir (MkDir files subs) = true →
  Forall valid_name (f_name <$> files)
  ∧ Forall valid_name (sub_names subs)
  ∧ NoDup (sub_names subs ++ (f_name <$> files))
  ∧ wf_subs subs = true.
Proof.
  cbn [wf_dir]. rewrite !andb_true_iff.
  intros [[[H1 H2] H3] H4]. repeat split; [| |by apply bool_decide_eq_true in H3|done].
  - apply forallb_True. by rewrite H1.
  - apply forallb_True. by rewrite H2.
Qed.

Lemma entered_NoDup :
  (∀ d root, wf_dir d = true → NoDup (entered_dir root d).*1)
  ∧ (∀ s root, wf_subs s = true → NoDup (sub_names s) →
       NoDup (entered_subs root s).*1).
Proof.
  apply (Dir_Subs_mut
    (λ d, ∀ root, wf_dir d = true → NoDup (entered_dir root d).*1)
    (λ s, ∀ root, wf_subs s = true → NoDup (sub_names s) →
       NoDup (entered_subs root s).*1)).
  - intros files subs IH root (_ & _ & [Hnd _]%NoDup_app & Hwf)%wf_dir_unfold.
    cbn [entered_dir]. rewrite fmap_cons. apply NoDup_cons. split; [|by apply IH].
    intros (e & Heq & He)%list_elem_of_fmap.
    destruct (proj2 entered_prefix _ _ _ He) as (name & _ & Hpre).
    apply prefix_length in Hpre. rewrite length_app, <-Heq in Hpre. simpl in Hpre. lia.
  - intros root _ _. constructor.
  - intros name d IHd rest IHr root [Hd Hr]%andb_true_iff [Hname Hnd]%NoDup_cons.
    cbn [entered_subs]. rewrite fmap_app. apply NoDup_app.
    split; [by apply IHd|]. split; [|by apply IHr].
    intros p (e1 & -> & He1)%list_elem_of_fmap (e2 & Heq & He2)%list_elem_of_fmap.
    apply (proj1 entered_prefix) in He1.
    destruct (proj2 entered_prefix _ _ _ He2) as (name' & Hin & Hpre).
    rewrite <-Heq in Hpre.
    by rewrite (snoc_prefix_same _ _ _ _ He1 Hpre) in Hname.
  - intros name rest IHr root Hr [_ Hnd]%NoDup_cons. by apply IHr.
Qed.

Lemma entered_valid :
  (∀ d root e, wf_dir d = true → Forall valid_name root →
     e ∈ entered_dir root d →
     Forall valid_name e.1 ∧ Forall valid_name (f_name <$> dir_files e.2))
  ∧ (∀ s root e, wf_subs s = true → Forall valid_name (sub_names s) →
       Forall valid_name root → e ∈ entered_subs root s →
       Forall valid_name e.1 ∧ Forall valid_name (f_name <$> dir_files e.2)).
Proof.
  apply (Dir_Subs_mut
    (λ d, ∀ root e, wf_dir d = true → Forall valid_name root →
       e ∈ entered_dir root d →
       Forall valid_name e.1 ∧ Forall valid_name (f_name <$> dir_files e.2))
    (λ s, ∀ root e, wf_subs s = true → Forall valid_name (sub_names s) →
       Forall valid_name root → e ∈ entered_subs root s →
       Forall valid_name e.1 ∧ Forall valid_name (f_name <$> dir_files e.2))).
  - intros files subs IH root e (Hf & Hs & _ & Hwf)%wf_dir_unfold Hroot.
    cbn [entered_dir]. intros [->|He]%elem_of_cons; [done|]. by eapply IH.
  - intros root e _ _ _ He. by apply elem_of_nil in He.
  - intros name d IHd rest IHr root e [Hd Hr]%andb_true_iff.
    cbn [sub_names entered_subs]. intros [Hn Hs]%Forall_cons Hroot [He|He]%elem_of_app.
    + eapply IHd; [done| |done]. apply Forall_app. by split; [|constructor].
    + by eapply IHr.
  - intros name rest IHr root e Hr. cbn [sub_names entered_subs].
    intros [Hn Hs]%Forall_cons Hroot He. by eapply IHr.
Qed.

(** ** Relative paths of well-formed trees *)

Lemma valid_name_spec n :
  valid_name n → n ≠ [] ∧ n ≠ lit "." ∧ n ≠ lit ".." ∧ sep ∉ n.
Proof.
  unfold valid_name. intros H. apply Is_true_true in H.
  rewrite !andb_true_iff, !negb_true_iff in H.
  destruct H as [[[H1 H2] H3] H4].
  by repeat split; apply (bool_decide_eq_false_1 _).
Qed.

Lemma sep_join_cons2 c c' r :
  OsPath.sep_join (c :: c' :: r) = c ++ sep :: OsPath.sep_join (c' :: r).
Proof. done. Qed.

Lemma last_sep_join l c :
  last l = Some c → c ≠ [] → last (OsPath.sep_join l) = last c.
Proof.
  intros Hl Hc. induction l as [|c0 [|c1 r] IH]; [done| |].
  - by injection Hl as ->.
  - rewrite sep_join_cons2, last_app, last_cons.
    rewrite last_cons_cons in Hl. rewrite (IH Hl).
    apply last_is_Some in Hc as [x ->]. done.
Qed.

Lemma relpath_not_ends_sep l :
  Forall valid_name l → ¬ [sep] `suffix_of` OsPath.relpath l.
Proof.
  intros Hl [k Hk].
  destruct (last l) as [c|] eqn:Hlast.
  - assert (Hc : valid_name c).
    { rewrite Forall_forall in Hl. by eapply Hl, last_Some_elem_of. }
    apply valid_name_spec in Hc as (Hne & _ & _ & Hsep).
    assert (OsPath.relpath l = OsPath.sep_join l) as Hrel by by destruct l.
    rewrite Hrel in Hk. pose proof (last_sep_join l c Hlast Hne) as H.
    rewrite Hk, last_snoc in H. symmetry in H.
    by apply last_Some_elem_of in H.
  - apply last_None in Hlast as ->. cbn in Hk.
    by destruct k as [|? [|? ?]].
Qed.

Lemma sep_join_nonempty l :
  Forall valid_name l → l ≠ [] → OsPath.sep_join l ≠ [].
Proof.
  intros Hl Hne. destruct l as [|c [|c' r]]; [done| |].
  - apply Forall_cons in Hl as [Hc _]. by apply valid_name_spec in Hc as (? & _).
  - rewrite sep_join_cons2. by destruct c.
Qed.

Lemma relpath_nonempty l : Forall valid_name l → OsPath.relpath l ≠ [].
Proof.
  intros Hl. destruct l as [|c r] eqn:E; [done|].
  change (OsPath.sep_join (c :: r) ≠ []). by apply sep_join_nonempty.
Qed.

Lemma sep_join_inj l1 l2 :
  Forall valid_name l1 → Forall valid_name l2 → l1 ≠ [] → l2 ≠ [] →
  OsPath.sep_join l1 = OsPath.sep_join l2 → l1 = l2.
Proof.
  intros Hl1. revert l2.
  induction l1 as [|c1 [|c1' r1] IH]; intros [|c2 [|c2' r2]] Hl2 ?? Heq;
    try done.
  - simpl in Heq. by subst.
  - apply Forall_cons in Hl1 as [(_ & _ & _ & Hc1)%valid_name_spec _].
    rewrite sep_join_cons2 in Heq. change (OsPath.sep_join [c1]) with c1 in Heq.
    destruct Hc1. rewrite Heq. apply elem_of_app. right. left.
  - apply Forall_cons in Hl2 as [(_ & _ & _ & Hc2)%valid_name_spec _].
    rewrite sep_join_cons2 in Heq. change (OsPath.sep_join [c2]) with c2 in Heq.
    destruct Hc2. rewrite <-Heq. apply elem_of_app. right. left.
  - apply Forall_cons in Hl1 as [(_ & _ & _ & Hc1)%valid_name_spec Hl1].
    apply Forall_cons in Hl2 as [(_ & _ & _ & Hc2)%valid_name_spec Hl2].
    rewrite !sep_join_cons2 in Heq.
    apply not_elem_of_app_cons_inv_l in Heq as (-> & _ & Heq); [|done..].
    f_equal. by apply IH.
Qed.

Lemma relpath_not_dot l :
  Forall valid_name l → l ≠ [] → OsPath.relpath l ≠ lit ".".
Proof.
  intros Hl Hne Heq. destruct l as [|c [|c' r]]; [done| |].
  - apply Forall_cons in Hl as [(_ & Hdot & _)%valid_name_spec _]. by apply Hdot.
  - apply Forall_cons in Hl as [(Hc & _ & _ & Hsep)%valid_name_spec _].
    change (OsPath.relpath (c :: c' :: r)) with (c ++ sep :: OsPath.sep_join (c' :: r)) in Heq.
    destruct c as [|x [|? ?]]; [done| |done].
    cbn in Heq. injection Heq as _ Heq. discriminate Heq.
Qed.

Lemma relpath_inj l1 l2 :
  Forall valid_name l1 → Forall valid_name l2 →
  OsPath.relpath l1 = OsPath.relpath l2 → l1 = l2.
Proof.
  intros Hl1 Hl2 Heq. destruct l1 as [|c1 r1], l2 as [|c2 r2]; [done| | |].
  - symmetry in Heq. by apply relpath_not_dot in Heq.
  - by apply relpath_not_dot in Heq.
  - by apply sep_join_inj.
Qed.

Lemma join_valid l n :
  Forall valid_name l → valid_name n →
  OsPath.join (OsPath.relpath l) n = OsPath.relpath l ++ sep :: n.
Proof.
  intros Hl (_ & _ & _ & Hsep)%valid_name_spec. unfold OsPath.join.
  unfold Py.startswith, Py.endswith.
  rewrite (bool_decide_eq_false_2 (_ `prefix_of` _)).
  2:{ intros [k ->]. apply Hsep. left. }
  rewrite (bool_decide_eq_false_2 (_ = [])) by by apply relpath_nonempty.
  by rewrite (bool_decide_eq_false_2 (_ `suffix_of` _))
    by by apply relpath_not_ends_sep.
Qed.

Lemma join_inj l1 n1 l2 n2 :
  Forall valid_name l1 → valid_name n1 →
  Forall valid_name l2 → valid_name n2 →
  OsPath.join (OsPath.relpath l1) n1 = OsPath.join (OsPath.relpath l2) n2 →
  l1 = l2 ∧ n1 = n2.
Proof.
  intros Hl1 Hn1 Hl2 Hn2. rewrite !join_valid by done.
  apply valid_name_spec in Hn1 as (_ & _ & _ & Hn1).
  apply valid_name_spec in Hn2 as (_ & _ & _ & Hn2).
  intros (Hrel & _ & Hn)%not_elem_of_app_cons_inv_r; [|done..].
  split; [|done]. by apply relpath_inj.
Qed.

(** ** The walk of a well-formed tree *)

Lemma NoDup_fst_inj {A B} (l : list (A * B)) e1 e2 :
  NoDup l.*1 → e1 ∈ l → e2 ∈ l → e1.1 = e2.1 → e1 = e2.
Proof.
  induction l as [|e l IH]; intros Hnd H1 H2 Heq.
  { by apply elem_of_nil in H1. }
  rewrite fmap_cons in Hnd. apply NoDup_cons in Hnd as [He Hnd].
  apply elem_of_cons in H1 as [->|H1]; apply elem_of_cons in H2 as [->|H2].
  - done.
  - destruct He. rewrite Heq. by apply list_elem_of_fmap_2.
  - destruct He. rewrite <-Heq. by apply list_elem_of_fmap_2.
  - by apply IH.
Qed.

Lemma entered_NoDup_top top : wf_node top = true → NoDup (entered top).*1.
Proof.
  destruct top as [| |d]; [constructor..|]. apply entered_NoDup.
Qed.

Lemma entered_valid_top top e :
  wf_node top = true → e ∈ entered top →
  Forall valid_name e.1 ∧ Forall valid_name (f_name <$> dir_files e.2).
Proof.
  destruct top as [| |d]; [by intros _ ?%elem_of_nil..|].
  intros Hwf He. by eapply (proj1 entered_valid).
Qed.

Lemma walk_valid top t :
  wf_node top = true → t ∈ os_walk top →
  Forall valid_name (t_root t) ∧ Forall valid_name (f_name <$> t_files t).
Proof.
  intros Hwf. rewrite os_walk_entered.
  intros (e & -> & He)%list_elem_of_fmap. by eapply entered_valid_top.
Qed.

Lemma walk_root_inj top t1 t2 :
  wf_node top = true → t1 ∈ os_walk top → t2 ∈ os_walk top →
  t_root t1 = t_root t2 → t1 = t2.
Proof.
  intros Hwf. rewrite os_walk_entered.
  intros (e1 & -> & He1)%list_elem_of_fmap (e2 & -> & He2)%list_elem_of_fmap Heq.
  f_equal. eapply NoDup_fst_inj; [by apply entered_NoDup_top|done..].
Qed.

Lemma walk_rel_inj top t1 t2 :
  wf_node top = true → t1 ∈ os_walk top → t2 ∈ os_walk top →
  rel_of t1 = rel_of t2 → t1 = t2.
Proof.
  intros Hwf H1 H2 Heq. eapply walk_root_inj; [done..|].
  apply relpath_inj; [by eapply walk_valid..|done].
Qed.

Lemma walk_NoDup top : wf_node top = true → NoDup (os_walk top).
Proof.
  intros Hwf. rewrite os_walk_entered.
  apply NoDup_fmap_2_strong.
  - intros e1 e2 He1 He2 Heq. eapply NoDup_fst_inj;
      [by apply entered_NoDup_top|done..|]. by injection Heq.
  - eapply NoDup_fmap_1. by apply entered_NoDup_top.
Qed.

Lemma recorded_walk top t : t ∈ recorded top → t ∈ os_walk top ∧ listed t = true.
Proof.
  intros [Hl Ht]%list_elem_of_filter. split; [done|]. by apply Is_true_true.
Qed.

Lemma recorded_rel_NoDup top :
  wf_node top = true → NoDup (dir_entry <$> recorded top).*1.
Proof.
  intros Hwf. rewrite <-list_fmap_compose.
  apply NoDup_fmap_2_strong.
  - intros t1 t2 [H1 _]%recorded_walk [H2 _]%recorded_walk Heq.
    by eapply walk_rel_inj.
  - apply NoDup_filter. by apply walk_NoDup.
Qed.

Lemma listed_not_git t :
  listed t = true → Py.contains git (rel_of t) = false.
Proof.
  unfold listed, excluded. by intros [_ ?]%negb_true_iff%orb_false_iff.
Qed.

(** ** The directory summary *)

Lemma directories_lookup_inv top k info :
  store (∅ : gmap str DirInfo) (dir_entry <$> recorded top) !! k = Some info →
  ∃ root d, (root, d) ∈ entered top
    ∧ excluded (OsPath.relpath root) = false
    ∧ k = OsPath.relpath root
    ∧ info = MkDirInfo (length (dir_files d)) (length (sub_names (dir_subs d))).
Proof.
  intros [H|H]%store_lookup_inv; [by rewrite lookup_empty in H|].
  apply list_elem_of_fmap in H as (t & Heq & [Ht Hl]%recorded_walk).
  rewrite os_walk_entered in Ht.
  apply list_elem_of_fmap in Ht as ([root d] & -> & He).
  exists root, d. injection Heq as -> ->.
  repeat split; [done|]. by apply negb_true_iff in Hl.
Qed.

(** C10.  On a tree whose files can all be sized the walker returns, and
    the entry of each directory that passes the two guards holds the
    number of its files and the number of all its subdirectories, the
    ones that [os.walk] lists without entering and the ones whose own
    path is excluded among them; every entry of the summary is of this
    kind. *)
Theorem C10_subdirectory_count_includes_excluded (top : Node)
    (Hwf : wf_node top = true) (Hsz : sizes_known top = true) :
  ∃ structure,
    _analyze_file_structure top = Ok structure
    ∧ (∀ root d, (root, d) ∈ entered top →
         excluded (OsPath.relpath root) = false →
         directories structure !! OsPath.relpath root
         = Some (MkDirInfo (length (dir_files d))
                   (length (sub_names (dir_subs d)))))
    ∧ (∀ k info, directories structure !! k = Some info →
         ∃ root d, (root, d) ∈ entered top
           ∧ excluded (OsPath.relpath root) = false
           ∧ k = OsPath.relpath root
           ∧ info = MkDirInfo (length (dir_files d))
                      (length (sub_names (dir_subs d)))).
Proof.
  eexists. split; [by apply analyze_file_structure_ok|].
  destruct (foldl_visit_ok (recorded top) empty_structure) as (-> & _).
  cbn [directories empty_structure]. split.
  - intros root d He Hex. apply store_lookup_in; [by apply recorded_rel_NoDup|].
    apply list_elem_of_fmap. exists (triple_of (root, d)). split; [done|].
    apply list_elem_of_filter. split.
    + unfold listed, rel_of. cbn. by rewrite Hex.
    + rewrite os_walk_entered. by apply list_elem_of_fmap_2.
  - apply directories_lookup_inv.
Qed.

Lemma C10_subdirectory_count_includes_excluded_witness :
  ∃ structure,
    _analyze_file_structure tree_src = Ok structure
    ∧ directories structure !! lit "src" = Some (MkDirInfo 1 2)
    ∧ directories structure !! lit "src/.git" = None.
Proof.
  destruct (C10_subdirectory_count_includes_excluded tree_src eq_refl eq_refl)
    as (structure & Hrun & Hdir & Hinv).
  exists structure. split; [exact Hrun|]. split.
  - apply (Hdir [lit "src"] dir_src); [|reflexivity].
    find_elem.
  - destruct (directories structure !! lit "src/.git") as [info|] eqn:E;
      [|reflexivity].
    destruct (Hinv _ _ E) as (root & d & _ & Hex & Hk & _).
    rewrite <-Hk in Hex. discriminate Hex.
Defined.

(** ** Excluded directories *)

(** The second guard is a substring test on the relative path. *)
Example excluded_paths :
  excluded (lit ".git") = true ∧ excluded (lit "src/.git/hooks") = true
  ∧ excluded (lit ".github/workflows") = true
  ∧ excluded (lit "mygit") = false ∧ excluded (lit "src") = false.
Proof. by repeat split. Qed.

(** C5.  On a well-formed tree whose recorded files can all be sized the
    walker returns, and a directory whose relative path contains [.git]
    has no entry in the directory summary and none of its files has a
    file record; the total and the histogram count the files of the
    directories that pass the two guards, and no other file. *)
Theorem C5_git_directories_excluded (top : Node)
    (Hwf : wf_node top = true) (Hsz : sizes_known top = true) :
  ∃ structure,
    _analyze_file_structure top = Ok structure
    ∧ (∀ t, t ∈ os_walk top → Py.contains git (rel_of t) = true →
         directories structure !! rel_of t = None
         ∧ ∀ f, f ∈ t_files t →
             files structure !! OsPath.join (rel_of t) (f_name f) = None)
    ∧ total_files structure
      = sum_list_with (λ t, length (t_files t)) (recorded top)
    ∧ (∀ ext, get0 (file_types structure) ext
         = length (filter (λ f, classify (f_name f) = ext) (walker_files top))).
Proof.
  eexists. split; [by apply analyze_file_structure_ok|].
  destruct (foldl_visit_ok (recorded top) empty_structure)
    as (-> & -> & -> & ->).
  cbn [directories files file_types total_files empty_structure].
  split; [|split; [done|]].
  - intros t Ht Hgit. split.
    + rewrite store_lookup_notin; [done|].
      intros (kv & Hk & (t' & -> & [_ Hl]%recorded_walk)%list_elem_of_fmap)%list_elem_of_fmap.
      apply listed_not_git in Hl. cbn in Hk. congruence.
    + intros f Hf. rewrite store_lookup_notin; [done|].
      intros (kv & Hk & (t' & Hkv & [Ht' Hl]%recorded_walk)%list_elem_of_bind)%list_elem_of_fmap.
      apply list_elem_of_fmap in Hkv as (f' & -> & Hf').
      cbn in Hk. unfold rel_of in Hk.
      destruct (walk_valid top t Hwf Ht) as [Hr Hn].
      destruct (walk_valid top t' Hwf Ht') as [Hr' Hn'].
      rewrite Forall_fmap, Forall_forall in Hn, Hn'.
      apply join_inj in Hk as [Hroot _];
        [|done|by apply (Hn f)|done|by apply (Hn' f')].
      apply listed_not_git in Hl. unfold rel_of in *. congruence.
  - intros ext. rewrite tally_get0. unfold get0. rewrite lookup_empty. cbn.
    unfold walker_files.
    induction (recorded top ≫= λ t, t_files t) as [|f fs IH]; [done|].
    rewrite fmap_cons, !filter_cons. cbn.
    destruct (decide (classify (f_name f) = ext)); cbn; by rewrite IH.
Qed.

Lemma C5_git_directories_excluded_witness :
  ∃ structure,
    _analyze_file_structure tree_src = Ok structure
    ∧ directories structure !! lit "src/.git" = None
    ∧ files structure !! lit "src/.git/HEAD" = None
    ∧ total_files structure = 1.
Proof.
  destruct (C5_git_directories_excluded tree_src eq_refl eq_refl)
    as (structure & Hrun & Hgit & Htotal & _).
  exists structure. split; [exact Hrun|].
  destruct (Hgit (MkTriple [lit "src"; lit ".git"] [] [file_head]))
    as [Hdir Hfiles].
  { find_elem. }
  { reflexivity. }
  split; [exact Hdir|]. split; [|exact Htotal].
  apply (Hfiles file_head).
  apply list_elem_of_here.
Defined.

(** ** File records *)

Lemma store_lookup_functional {V} (d : gmap str V) kvs k v :
  (k, v) ∈ kvs → (∀ v', (k, v') ∈ kvs → v' = v) →
  store d kvs !! k = Some v.
Proof.
  revert d. induction kvs as [|[k' v'] kvs IH]; intros d Hin Hfun.
  { by apply elem_of_nil in Hin. }
  rewrite store_cons. destruct (decide (k ∈ kvs.*1)) as [Hk|Hk].
  - apply IH; [|intros v'' ?; apply Hfun; by right].
    apply list_elem_of_fmap in Hk as ([k0 v0] & -> & H0).
    by rewrite <-(Hfun v0) by by right.
  - rewrite store_lookup_notin by done.
    apply elem_of_cons in Hin as [Heq|Hin].
    + injection Heq as -> ->. by rewrite lookup_insert_eq.
    + destruct Hk. by apply (list_elem_of_fmap_2 fst) in Hin.
Qed.

Lemma walk_file_names_NoDup top t :
  wf_node top = true → t ∈ os_walk top → NoDup (f_name <$> t_files t).
Proof.
  intros Hwf. rewrite os_walk_entered.
  intros ([root d] & -> & He)%list_elem_of_fmap. cbn.
  assert (H : ∀ root0 d0, wf_dir d0 = true → (root, d) ∈ entered_dir root0 d0 →
              wf_dir d = true).
  { clear. intros root0 d0. revert d0 root0.
    refine (proj1 (Dir_Subs_mut
      (λ d0, ∀ root0, wf_dir d0 = true → (root, d) ∈ entered_dir root0 d0 →
         wf_dir d = true)
      (λ s, ∀ root0, wf_subs s = true → (root, d) ∈ entered_subs root0 s →
         wf_dir d = true) _ _ _ _)).
    - intros files subs IH root0 Hwf. cbn [entered_dir].
      intros [Heq|He]%elem_of_cons; [by injection Heq as -> ->|].
      apply wf_dir_unfold in Hwf as (_ & _ & _ & Hwf). by eapply IH.
    - by intros root0 _ ?%elem_of_nil.
    - intros name d0 IHd rest IHr root0 [Hd Hr]%andb_true_iff.
      cbn [entered_subs]. intros [He|He]%elem_of_app; [by eapply IHd|by eapply IHr].
    - intros name rest IHr root0 Hr He. by eapply IHr. }
  destruct top as [| |d0]; [by apply elem_of_nil in He..|].
  specialize (H _ _ Hwf He). destruct d as [files subs].
  by apply wf_dir_unfold in H as (_ & _ & [_ [_ ?]]%NoDup_app & _).
Qed.

(** X5.  On a well-formed tree whose recorded files can be sized, each
    file of a directory that passes the two guards gets one record,
    under its path, holding its size and its extension. *)
Lemma recorded_file_has_record (top : Node)
    (Hwf : wf_node top = true) (Hsz : sizes_known top = true) :
  ∃ structure,
    _analyze_file_structure top = Ok structure
    ∧ ∀ t f, t ∈ recorded top → f ∈ t_files t →
        ∃ sz, f_size f = Some sz
          ∧ files structure !! OsPath.join (rel_of t) (f_name f)
            = Some (MkFileInfo sz (classify (f_name f))).
Proof.
  eexists. split; [by apply analyze_file_structure_ok|].
  destruct (foldl_visit_ok (recorded top) empty_structure) as (_ & -> & _).
  cbn [files empty_structure]. intros t f Ht Hf.
  assert (is_Some (f_size f)) as [sz Hfsz].
  { unfold sizes_known in Hsz. rewrite forallb_forall in Hsz.
    apply (bool_decide_eq_true_1 _), Hsz, list_elem_of_In, list_elem_of_bind.
    by exists t. }
  exists sz. split; [done|].
  replace (MkFileInfo sz (classify (f_name f))) with (file_entry (rel_of t) f).2
    by (unfold file_entry; cbn; by rewrite Hfsz).
  apply store_lookup_functional.
  - apply list_elem_of_bind. exists t. split; [|done].
    by apply (list_elem_of_fmap_2 (file_entry (rel_of t))).
  - intros v' (t' & (f' & Heq & Hf')%list_elem_of_fmap & Ht')%list_elem_of_bind.
    injection Heq as Hk ->. cbn.
    apply recorded_walk in Ht as [Ht _]. apply recorded_walk in Ht' as [Ht' _].
    destruct (walk_valid top t Hwf Ht) as [Hr Hn].
    destruct (walk_valid top t' Hwf Ht') as [Hr' Hn'].
    rewrite Forall_fmap, Forall_forall in Hn, Hn'. unfold rel_of in Hk.
    apply join_inj in Hk as [Hroot Hname];
      [|done|by apply (Hn f)|done|by apply (Hn' f')].
    assert (t = t') as <- by by eapply walk_root_inj.
    assert (f = f') as <-; [|done].
    pose proof (walk_file_names_NoDup top t Hwf Ht) as Hnd.
    apply list_elem_of_lookup in Hf as [i Hi]. apply list_elem_of_lookup in Hf' as [j Hj].
    assert (i = j) as ->; [|congruence].
    eapply NoDup_lookup; [done|..]; rewrite list_lookup_fmap.
    + by rewrite Hi.
    + rewrite Hj. cbn. by rewrite Hname.
Qed.

Lemma recorded_not_root top t : t ∈ recorded top → t_root t ≠ [].
Proof.
  intros [_ Hl]%recorded_walk Hroot. unfold listed, excluded, rel_of in Hl.
  by rewrite Hroot in Hl.
Qed.

(** C3: the code at files lying directly in the root.  The root triple
    has the relative path ["."], so the first guard skips it before the
    loop over its files: no triple that reaches the loop body is the
    root, and a root directory that holds files only yields the empty
    structure, with no file record, an empty histogram and [total_files]
    zero, however many files it lists. *)
Theorem C3_root_files_are_not_recorded :
  (∀ top t, t ∈ recorded top → t_root t ≠ [])
  ∧ (∀ files, _analyze_file_structure (Directory (MkDir files SNil))
              = Ok empty_structure)
  ∧ length (all_files tree_root_file) = 1
  ∧ _analyze_file_structure tree_root_file = Ok empty_structure.
Proof. split; [apply recorded_not_root|]. by repeat split. Qed.

(** ** The files behind the code metrics *)

(** C2, as amended.  The metrics pass walks the tree on its own and
    applies no exclusion: the files that contribute are all the files
    that the walk lists, in whatever directory (the root and directories
    under [.git] included), whose name ends in an allow-listed suffix and
    whose text can be read.  Each of them contributes once, to the line
    totals and to one size bucket. *)
Theorem C2_metrics_count_every_readable_source_file (top : Node) :
  let metrics := _analyze_code_metrics top in
  metrics = foldl add_lines zero_metrics (file_lines <$> counted top)
  ∧ (∀ t f, t ∈ os_walk top → f ∈ t_files t →
       is_source f = true → readable f = true → f ∈ counted top)
  ∧ (∀ f, f ∈ counted top →
       is_source f = true ∧ readable f = true
       ∧ ∃ t, t ∈ os_walk top ∧ f ∈ t_files t)
  ∧ (∀ b, bucket_count b (file_sizes metrics)
       = length (filter (λ f, size_bucket (length (file_lines f)) = b)
                   (counted top)))
  ∧ small (file_sizes metrics) + medium (file_sizes metrics)
    + large (file_sizes metrics) = length (counted top).
Proof.
  intros metrics. subst metrics. rewrite analyze_code_metrics_counted.
  assert (Hb : ∀ b,
    bucket_count b (file_sizes (foldl add_lines zero_metrics (file_lines <$> counted top)))
    = length (filter (λ f, size_bucket (length (file_lines f)) = b) (counted top))).
  { intros b. rewrite foldl_add_lines_buckets.
    replace (bucket_count b (file_sizes zero_metrics)) with 0 by by destruct b.
    induction (counted top) as [|f fs IH]; [done|].
    rewrite fmap_cons, !filter_cons. cbn.
    destruct (decide (size_bucket (length (file_lines f)) = b)); cbn; by rewrite <-IH. }
  split; [done|]. split; [|split; [|split; [done|]]].
  - intros t f Ht Hf Hsrc Htext. apply list_elem_of_filter. split.
    + unfold counted_file. by rewrite Hsrc, Htext.
    + apply list_elem_of_bind. by exists t.
  - intros f [Hc (t & Hf & Ht)%list_elem_of_bind]%list_elem_of_filter.
    apply andb_prop_elim in Hc as [Hsrc Htext].
    split; [by apply Is_true_true|]. split; [by apply Is_true_true|].
    by exists t.
  - pose proof (Hb Small) as HS. pose proof (Hb Medium) as HM.
    pose proof (Hb Large) as HL. cbn [bucket_count] in HS, HM, HL.
    rewrite HS, HM, HL. clear.
    induction (counted top) as [|f fs IH]; [done|].
    rewrite !filter_cons.
    repeat case_decide; cbn [length]; try lia;
      destruct (size_bucket (length (file_lines f))); congruence.
Qed.

(** C2 as stated fails: the file [.git/hook.py] gets no file record,
    the walker returning the empty structure, yet it is counted by the
    metrics pass. *)
Lemma C2_counterexample :
  _analyze_file_structure tree_git_hook = Ok empty_structure
  ∧ walker_files tree_git_hook = []
  ∧ _analyze_code_metrics tree_git_hook
    = MkMetrics 1 1 0 0 (MkFileSizes 1 0 0)
  ∧ ¬ (∀ f, f ∈ counted tree_git_hook → f ∈ walker_files tree_git_hook).
Proof.
  repeat split; try reflexivity.
  intros H. specialize (H file_hook).
  eapply elem_of_nil, H. vm_compute. apply list_elem_of_here.
Qed.

(** * Further properties *)

(** ** When the tree walker raises *)

Lemma record_file_unknown rel st f :
  ¬ size_known f → record_file rel st f = Raise OSError.
Proof.
  intros Hf. unfold record_file, getsize.
  destruct (f_size f) eqn:E; [|done]. destruct Hf. by eexists.
Qed.

Lemma for_each_record_file_raise rel st fs :
  ¬ Forall size_known fs → for_each (record_file rel) st fs = Raise OSError.
Proof.
  revert st. induction fs as [|f fs IH]; intros st Hfs.
  { destruct Hfs. constructor. }
  cbn [for_each]. destruct (decide (size_known f)) as [Hf|Hf].
  - rewrite record_file_known by done. apply IH.
    intros H. apply Hfs. by constructor.
  - by rewrite record_file_unknown.
Qed.

Lemma visit_listed_raise st t :
  listed t = true → ¬ Forall size_known (t_files t) →
  visit st t = Raise OSError.
Proof.
  unfold listed, excluded, visit, rel_of.
  intros [-> ->]%negb_true_iff%orb_false_iff Hfs.
  by apply for_each_record_file_raise.
Qed.

Lemma for_each_visit_raise st ts :
  ¬ Forall size_known (t ← filter listed ts; t_files t) →
  for_each visit st ts = Raise OSError.
Proof.
  revert st. induction ts as [|t ts IH]; intros st Hfs.
  { destruct Hfs. constructor. }
  rewrite filter_cons in Hfs. cbn [for_each].
  destruct (listed t) eqn:Ht; simpl in Hfs.
  - destruct (decide (Forall size_known (t_files t))) as [Hf|Hf].
    + rewrite visit_listed by done. apply IH.
      intros H. apply Hfs. by apply Forall_app.
    + by rewrite visit_listed_raise.
  - rewrite visit_unlisted by done. by apply IH.
Qed.

Lemma sizes_known_Forall top :
  sizes_known top = true ↔ Forall size_known (walker_files top).
Proof.
  unfold sizes_known. rewrite forallb_forall, Forall_forall. split.
  - intros H f Hf. by apply (bool_decide_eq_true_1 _), H, list_elem_of_In.
  - intros H f Hf. by apply bool_decide_eq_true_2, H, list_elem_of_In.
Qed.

Lemma analyze_file_structure_cases top :
  (Forall size_known (walker_files top)
   ∧ _analyze_file_structure top
     = Ok (foldl visit_ok empty_structure (recorded top)))
  ∨ (¬ Forall size_known (walker_files top)
     ∧ _analyze_file_structure top = Raise OSError).
Proof.
  destruct (decide (Forall size_known (walker_files top))) as [H|H].
  - left. split; [done|]. by apply analyze_file_structure_ok, sizes_known_Forall.
  - right. split; [done|]. by apply for_each_visit_raise.
Qed.

Lemma analyze_file_structure_inv top st :
  _analyze_file_structure top = Ok st →
  sizes_known top = true ∧ st = foldl visit_ok empty_structure (recorded top).
Proof.
  destruct (analyze_file_structure_cases top) as [[H ->]|[_ ->]]; [|done].
  intros [= <-]. split; [|done]. by apply sizes_known_Forall.
Qed.


(** ** Invariants of the returned structure *)

Lemma map_sum_empty {V} (g : V → nat) : map_sum g (∅ : gmap str V) = 0.
Proof. apply map_fold_empty. Qed.

Lemma map_sum_insert_None {V} (g : V → nat) (d : gmap str V) k v :
  d !! k = None → map_sum g (<[k:=v]> d) = g v + map_sum g d.
Proof.
  intros Hk. unfold map_sum. rewrite map_fold_insert_L; [done| |done].
  intros. lia.
Qed.

Lemma map_sum_insert {V} (g : V → nat) (d : gmap str V) k v :
  map_sum g (<[k:=v]> d) + from_option g 0 (d !! k) = g v + map_sum g d.
Proof.
  destruct (d !! k) as [old|] eqn:Hk; simpl.
  - rewrite <-(insert_delete_eq d k v).
    rewrite <-(insert_delete_id d k old Hk) at 2.
    rewrite !map_sum_insert_None by apply lookup_delete_eq. lia.
  - rewrite map_sum_insert_None by done. lia.
Qed.

Lemma map_sum_tally h ks :
  map_sum id (tally h ks) = map_sum id h + length ks.
Proof.
  revert h. induction ks as [|k ks IH]; intros h; [simpl; lia|].
  rewrite tally_cons, IH. pose proof (map_sum_insert id h k (get0 h k + 1)) as H.
  unfold get0 in *. destruct (h !! k); simpl in *; lia.
Qed.

Lemma store_fresh {V} (g : V → nat) (d : gmap str V) kvs :
  NoDup kvs.*1 → (∀ k, k ∈ kvs.*1 → d !! k = None) →
  base.size (store d kvs) = base.size d + length kvs
  ∧ map_sum g (store d kvs) = map_sum g d + sum_list_with (λ kv, g kv.2) kvs.
Proof.
  revert d. induction kvs as [|[k v] kvs IH]; intros d Hnd Hfresh.
  { simpl. split; lia. }
  rewrite fmap_cons in Hnd, Hfresh. apply NoDup_cons in Hnd as [Hk Hnd].
  rewrite store_cons. destruct (IH (<[k:=v]> d) Hnd) as [-> ->].
  - intros k' Hk'. rewrite lookup_insert_ne by (intros ->; done).
    apply Hfresh. by right.
  - assert (d !! k = None) as Hdk by (apply Hfresh; left).
    rewrite map_size_insert_None, map_sum_insert_None by done.
    simpl. split; lia.
Qed.

Lemma length_bind_files (ts : list Triple) :
  length (t ← ts; file_entries t) = sum_list_with (λ t, length (t_files t)) ts
  ∧ length (t ← ts; t_files t) = sum_list_with (λ t, length (t_files t)) ts.
Proof.
  induction ts as [|t ts [IH1 IH2]]; [done|].
  rewrite !bind_cons, !length_app, IH1, IH2. unfold file_entries.
  by rewrite length_fmap.
Qed.

(** X2.  Whenever the walker returns, the counts of the extension
    histogram add up to [total_files]. *)
Theorem histogram_adds_up_to_total_files (top : Node) (structure : Structure)
    (Hrun : _analyze_file_structure top = Ok structure) :
  map_sum id (file_types structure) = total_files structure.
Proof.
  apply analyze_file_structure_inv in Hrun as [_ ->].
  destruct (foldl_visit_ok (recorded top) empty_structure) as (_ & _ & -> & ->).
  cbn [file_types total_files empty_structure].
  rewrite map_sum_tally, map_sum_empty, length_fmap.
  by rewrite (proj2 (length_bind_files _)).
Qed.

Lemma histogram_adds_up_to_total_files_witness :
  ∃ structure,
    _analyze_file_structure tree_src = Ok structure
    ∧ map_sum id (file_types structure) = total_files structure.
Proof.
  eexists. split; [reflexivity|].
  apply (histogram_adds_up_to_total_files tree_src). reflexivity.
Defined.

Lemma fmap_bind_list {A B C} (g : B → C) (h : A → list B) (l : list A) :
  g <$> (l ≫= h) = l ≫= (λ x, g <$> h x).
Proof.
  induction l as [|x l IH]; [done|]. by rewrite !bind_cons, fmap_app, IH.
Qed.

Lemma NoDup_fmap_inj_on {A B} (g : A → B) (l : list A) x y :
  NoDup (g <$> l) → x ∈ l → y ∈ l → g x = g y → x = y.
Proof.
  intros Hnd [i Hi]%list_elem_of_lookup [j Hj]%list_elem_of_lookup Heq.
  assert (i = j) as ->; [|congruence].
  eapply NoDup_lookup; [done|..]; rewrite list_lookup_fmap.
  - by rewrite Hi.
  - rewrite Hj. simpl. by rewrite Heq.
Qed.

Lemma file_key_inj top t1 f1 t2 f2 :
  wf_node top = true →
  t1 ∈ os_walk top → f1 ∈ t_files t1 →
  t2 ∈ os_walk top → f2 ∈ t_files t2 →
  OsPath.join (rel_of t1) (f_name f1) = OsPath.join (rel_of t2) (f_name f2) →
  t1 = t2 ∧ f1 = f2.
Proof.
  intros Hwf Ht1 Hf1 Ht2 Hf2 Hk. unfold rel_of in Hk.
  destruct (walk_valid top t1 Hwf Ht1) as [Hr1 Hn1].
  destruct (walk_valid top t2 Hwf Ht2) as [Hr2 Hn2].
  rewrite Forall_fmap, Forall_forall in Hn1, Hn2.
  apply join_inj in Hk as [Hroot Hname];
    [|done|by apply (Hn1 f1)|done|by apply (Hn2 f2)].
  assert (t1 = t2) as <- by by eapply walk_root_inj.
  split; [done|]. eapply NoDup_fmap_inj_on; [|done..].
  by eapply walk_file_names_NoDup.
Qed.

Lemma file_keys_NoDup top :
  wf_node top = true → NoDup (t ← recorded top; file_entries t).*1.
Proof.
  intros Hwf. rewrite fmap_bind_list. apply NoDup_bind.
  - intros t1 t2 k [Ht1 _]%recorded_walk [Ht2 _]%recorded_walk.
    unfold file_entries. rewrite <-!list_fmap_compose.
    intros (f1 & -> & Hf1)%list_elem_of_fmap (f2 & Hk & Hf2)%list_elem_of_fmap.
    cbn in Hk. by eapply file_key_inj.
  - intros t [Ht _]%recorded_walk. unfold file_entries.
    rewrite <-list_fmap_compose. apply NoDup_fmap_2_strong.
    + intros f1 f2 Hf1 Hf2 Hk. cbn in Hk. by eapply file_key_inj.
    + eapply NoDup_fmap_1. by eapply walk_file_names_NoDup.
  - apply NoDup_filter. by apply walk_NoDup.
Qed.

(** X3.  On a well-formed tree, whenever the walker returns, the number
    of file records, and the sum of the [file_count] fields of the
    directory summary, both equal [total_files], and the summary has one
    entry for each directory that passes the two guards. *)
Theorem records_and_file_counts_match_total_files
    (top : Node) (structure : Structure)
    (Hwf : wf_node top = true)
    (Hrun : _analyze_file_structure top = Ok structure) :
  base.size (files structure) = total_files structure
  ∧ map_sum file_count (directories structure) = total_files structure
  ∧ base.size (directories structure) = length (recorded top).
Proof.
  apply analyze_file_structure_inv in Hrun as [_ ->].
  destruct (foldl_visit_ok (recorded top) empty_structure) as (-> & -> & _ & ->).
  cbn [directories files total_files empty_structure].
  destruct (store_fresh (λ _ : FileInfo, 0) ∅ (t ← recorded top; file_entries t))
    as [-> _]; [by apply file_keys_NoDup|by intros; apply lookup_empty|].
  destruct (store_fresh file_count ∅ (dir_entry <$> recorded top))
    as [-> ->]; [by apply recorded_rel_NoDup|by intros; apply lookup_empty|].
  rewrite map_size_empty, map_sum_empty, (proj1 (length_bind_files _)), length_fmap.
  repeat split. by rewrite sum_list_with_fmap.
Qed.

Lemma records_and_file_counts_match_total_files_witness :
  ∃ structure,
    _analyze_file_structure tree_src = Ok structure
    ∧ base.size (files structure) = total_files structure
    ∧ map_sum file_count (directories structure) = total_files structure.
Proof.
  eexists. split; [reflexivity|].
  destruct (records_and_file_counts_match_total_files tree_src _ eq_refl eq_refl)
    as (H1 & H2 & _).
  split; [exact H1|exact H2].
Defined.

Lemma store_lookup_is_Some {V} (d : gmap str V) kvs k :
  k ∈ kvs.*1 → is_Some (store d kvs !! k).
Proof.
  revert d. induction kvs as [|[k' v'] kvs IH]; intros d Hk.
  { by apply elem_of_nil in Hk. }
  rewrite store_cons. destruct (decide (k ∈ kvs.*1)) as [Hin|Hnin]; [by apply IH|].
  rewrite store_lookup_notin by done.
  rewrite fmap_cons in Hk. apply elem_of_cons in Hk as [->|Hk]; [|done].
  rewrite lookup_insert_eq. by eexists.
Qed.

(** X4.  Whenever the walker returns, every file record comes from a
    file that the walk lists in a directory passing the two guards: its
    key is the path of that file, its size is what [getsize] returns
    for it, its extension is the classifier's, and the directory of the
    file has an entry in the directory summary. *)
Theorem file_record_comes_from_listed_file
    (top : Node) (structure : Structure) (k : str) (info : FileInfo)
    (Hrun : _analyze_file_structure top = Ok structure)
    (Hk : files structure !! k = Some info) :
  ∃ t f,
    t ∈ os_walk top ∧ f ∈ t_files t
    ∧ excluded (rel_of t) = false
    ∧ k = OsPath.join (rel_of t) (f_name f)
    ∧ f_size f = Some (size info)
    ∧ extension info = classify (f_name f)
    ∧ is_Some (directories structure !! rel_of t).
Proof.
  apply analyze_file_structure_inv in Hrun as [Hsz ->].
  destruct (foldl_visit_ok (recorded top) empty_structure) as (Hd & Hf & _).
  rewrite Hf in Hk. rewrite Hd. cbn [directories files empty_structure] in *.
  apply store_lookup_inv in Hk as [Hk|Hk]; [by rewrite lookup_empty in Hk|].
  apply list_elem_of_bind in Hk as (t & (f & Heq & Hf')%list_elem_of_fmap & Ht).
  injection Heq as -> ->. exists t, f.
  pose proof Ht as [Hw Hl]%recorded_walk.
  assert (size_known f) as [sz Hfsz].
  { apply sizes_known_Forall in Hsz. rewrite Forall_forall in Hsz.
    apply Hsz, list_elem_of_bind. by exists t. }
  repeat split; try done.
  - by apply negb_true_iff in Hl.
  - cbn. by rewrite Hfsz.
  - apply store_lookup_is_Some. rewrite <-list_fmap_compose.
    by apply (list_elem_of_fmap_2 (fst ∘ dir_entry)).
Qed.

Lemma file_record_comes_from_listed_file_witness :
  ∃ structure info,
    _analyze_file_structure tree_src = Ok structure
    ∧ files structure !! lit "src/MAIN.PY" = Some info
    ∧ extension info = lit ".py".
Proof.
  eexists _, (MkFileInfo 9%N (lit ".py")).
  split; [reflexivity|]. split; [reflexivity|].
  destruct (file_record_comes_from_listed_file tree_src _ (lit "src/MAIN.PY")
              (MkFileInfo 9%N (lit ".py")) eq_refl eq_refl)
    as (t & f & _). reflexivity.
Defined.

Lemma recorded_file_has_record_witness :
  ∃ structure,
    _analyze_file_structure tree_src = Ok structure
    ∧ files structure !! lit "src/MAIN.PY"
      = Some (MkFileInfo 9%N (lit ".py")).
Proof.
  destruct (recorded_file_has_record tree_src eq_refl eq_refl)
    as (structure & Hrun & Hrec).
  exists structure. split; [exact Hrun|].
  destruct (Hrec (MkTriple [lit "src"] [lit ".git"; lit "lib"] [file_main])
              file_main) as (sz & Hsz & Hfile).
  - apply list_elem_of_filter. split; [exact I|]. find_elem.
  - find_elem.
  - injection Hsz as <-. exact Hfile.
Defined.

(** ** The code metrics and the order of the walk *)

Lemma bump_comm b1 b2 s : bump b1 (bump b2 s) = bump b2 (bump b1 s).
Proof. by destruct b1, b2, s. Qed.

Lemma add_lines_comm m l1 l2 :
  add_lines (add_lines m l1) l2 = add_lines (add_lines m l2) l1.
Proof.
  unfold add_lines. cbn. rewrite bump_comm. f_equal; lia.
Qed.

Lemma foldl_add_lines_perm ls1 ls2 m :
  ls1 ≡ₚ ls2 → foldl add_lines m ls1 = foldl add_lines m ls2.
Proof.
  intros Hp. revert m.
  induction Hp as [|l ls1 ls2 _ IH|l1 l2 ls|ls1 ls2 ls3 _ IH1 _ IH2]; intros m.
  - done.
  - apply IH.
  - cbn [foldl]. by rewrite add_lines_comm.
  - by rewrite IH1.
Qed.

(** X6.  The code metrics depend on the files that the walk lists only,
    whatever the order in which it lists them and whatever directories
    they lie in: two trees listing the same files, in any order, have
    the same metrics. *)
Theorem metrics_independent_of_walk_order (top top' : Node)
    (Hsame : all_files top ≡ₚ all_files top') :
  _analyze_code_metrics top = _analyze_code_metrics top'.
Proof.
  rewrite !analyze_code_metrics_counted. apply foldl_add_lines_perm.
  unfold counted. by rewrite Hsame.
Qed.

Lemma metrics_independent_of_walk_order_witness :
  _analyze_code_metrics tree_git_hook = _analyze_code_metrics tree_root_hook.
Proof.
  apply (metrics_independent_of_walk_order tree_git_hook tree_root_hook).
  reflexivity.
Defined.

(** ** The lines of a text *)

Lemma readlines_go_concat cur s :
  concat (Py.readlines_go cur s) = reverse cur ++ s.
Proof.
  revert cur. induction s as [|c s IH]; intros cur; cbn [Py.readlines_go].
  - destruct cur; [done|]. cbn. by rewrite !(right_id_L [] (++)).
  - destruct (decide (c = newline)) as [->|Hc].
    + cbn [concat]. rewrite IH, reverse_cons. cbn.
      by rewrite <-(assoc_L (++)).
    + rewrite IH, reverse_cons. by rewrite <-(assoc_L (++)).
Qed.

Lemma readlines_go_lines cur s :
  newline ∉ cur → Forall is_line (Py.readlines_go cur s).
Proof.
  revert cur. induction s as [|c s IH]; intros cur Hcur; cbn [Py.readlines_go].
  - destruct cur as [|x cur]; constructor; [|constructor].
    exists (reverse (x :: cur)). split; [by rewrite elem_of_reverse|].
    right. split; [done|]. rewrite reverse_cons. by destruct (reverse cur).
  - destruct (decide (c = newline)) as [->|Hc].
    + constructor; [|by apply IH, not_elem_of_nil].
      exists (reverse cur). split; [by rewrite elem_of_reverse|].
      left. by rewrite reverse_cons.
    + apply IH. by apply not_elem_of_cons.
Qed.

Lemma dangling_app_cons w c s :
  s ≠ [] → dangling (w ++ c :: s) = dangling s.
Proof.
  intros Hs. unfold dangling. rewrite last_app, last_cons.
  apply last_is_Some in Hs as [x ->]. done.
Qed.

Lemma readlines_go_length cur s :
  newline ∉ cur →
  length (Py.readlines_go cur s)
  = length (filter (λ c, c = newline) s) + dangling (reverse cur ++ s).
Proof.
  revert cur. induction s as [|c s IH]; intros cur Hcur; cbn [Py.readlines_go].
  - rewrite (right_id_L [] (++)). unfold dangling.
    destruct cur as [|x cur]; [done|]. rewrite reverse_cons, last_snoc.
    apply not_elem_of_cons in Hcur as [Hx _].
    destruct (decide (x = newline)); [congruence|done].
  - rewrite filter_cons. destruct (decide (c = newline)) as [->|Hc].
    + cbn [length]. rewrite IH by apply not_elem_of_nil. cbn [reverse app].
      destruct s as [|c' s'].
      * unfold dangling. rewrite last_snoc. cbn. by rewrite decide_True.
      * by rewrite (dangling_app_cons (reverse cur) newline (c' :: s')).
    + rewrite IH by by apply not_elem_of_cons.
      by rewrite reverse_cons, <-(assoc_L (++)).
Qed.

(** X7.  The lines that the metrics pass reads from a text put together
    give the text back; each line is a newline-free body followed by one
    newline, but for a last line without terminator, which is not empty;
    and their number, the file's contribution to [total_lines], is the
    number of newlines of the text, plus one when the text ends in a
    character other than a newline. *)
Theorem readlines_splits_text_at_newlines (text : str) :
  concat (Py.readlines text) = text
  ∧ Forall is_line (Py.readlines text)
  ∧ length (Py.readlines text)
    = length (filter (λ c, c = newline) text) + dangling text.
Proof.
  unfold Py.readlines. split; [apply readlines_go_concat|]. split.
  - apply readlines_go_lines, not_elem_of_nil.
  - by rewrite readlines_go_length by apply not_elem_of_nil.
Qed.

(** ** White space around a line *)

Lemma lstrip_nil_iff s : Py.lstrip s = [] ↔ forallb Py.isspace s = true.
Proof.
  induction s as [|c s IH]; [done|]. cbn.
  destruct (Py.isspace c); [done|]. by split.
Qed.

Lemma lstrip_head s c r : Py.lstrip s = c :: r → Py.isspace c = false.
Proof.
  induction s as [|x s IH]; [done|]. cbn.
  destruct (Py.isspace x) eqn:Hx; [done|]. by intros [= <- _].
Qed.

Lemma lstrip_fixed c r : Py.isspace c = false → Py.lstrip (c :: r) = c :: r.
Proof. intros H. cbn. by rewrite H. Qed.

Lemma lstrip_app a b :
  Py.lstrip (a ++ b)
  = if forallb Py.isspace a then Py.lstrip b else Py.lstrip a ++ b.
Proof.
  induction a as [|c a IH]; [done|]. cbn.
  by destruct (Py.isspace c).
Qed.

Lemma forallb_reverse {A} (p : A → bool) (l : list A) :
  forallb p (reverse l) = forallb p l.
Proof.
  induction l as [|x l IH]; [done|].
  rewrite reverse_cons, forallb_app, IH. cbn.
  by destruct (p x), (forallb p l).
Qed.

Lemma strip_nil_iff s : Py.strip s = [] ↔ forallb Py.isspace s = true.
Proof.
  unfold Py.strip, Py.rstrip. rewrite <-lstrip_nil_iff.
  split.
  - intros H. apply (f_equal reverse) in H. rewrite reverse_involutive in H.
    cbn in H. apply lstrip_nil_iff in H. rewrite forallb_reverse in H.
    destruct (Py.lstrip s) as [|c r] eqn:E; [done|].
    apply lstrip_head in E. cbn in H. by rewrite E in H.
  - by intros ->.
Qed.

(** X8.  A line is blank exactly when all its characters are white
    space, the line terminator among them. *)
Theorem blank_iff_all_white_space (l : str) :
  is_blank l = forallb Py.isspace l.
Proof.
  unfold is_blank, truthy. rewrite negb_involutive.
  destruct (forallb Py.isspace l) eqn:E.
  - apply bool_decide_eq_true_2. by apply strip_nil_iff.
  - apply bool_decide_eq_false_2. rewrite strip_nil_iff. by rewrite E.
Qed.

Lemma lstrip_suffix s : ∃ ws, s = ws ++ Py.lstrip s.
Proof.
  induction s as [|c s [ws IH]]; [by exists []|]. cbn.
  destruct (Py.isspace c); [|by exists []].
  exists (c :: ws). cbn. by rewrite <-IH.
Qed.

Lemma rstrip_prefix s : Py.rstrip s `prefix_of` s.
Proof.
  unfold Py.rstrip. destruct (lstrip_suffix (reverse s)) as [ws Hws].
  exists (reverse ws). rewrite <-reverse_app, <-Hws. by rewrite reverse_involutive.
Qed.

Lemma rstrip_app_nonspace p c r :
  Py.isspace c = false → Py.rstrip (p ++ c :: r) = p ++ c :: Py.rstrip r.
Proof.
  intros Hc. unfold Py.rstrip.
  rewrite reverse_app, reverse_cons, <-(assoc_L (++)), lstrip_app. cbn [app].
  destruct (forallb Py.isspace (reverse r)) eqn:E.
  - rewrite lstrip_fixed by done. apply lstrip_nil_iff in E. rewrite E.
    by rewrite reverse_cons, reverse_involutive.
  - rewrite reverse_app, reverse_cons, reverse_involutive.
    by rewrite <-(assoc_L (++)).
Qed.

Lemma rstrip_cons_nonspace c r :
  Py.isspace c = false → Py.rstrip (c :: r) = c :: Py.rstrip r.
Proof. apply (rstrip_app_nonspace []). Qed.

Lemma startswith_nil s : Py.startswith s [] = true.
Proof. apply bool_decide_eq_true_2, prefix_nil. Qed.

Lemma startswith_cons c s d p :
  Py.startswith (c :: s) (d :: p) = bool_decide (c = d) && Py.startswith s p.
Proof.
  unfold Py.startswith. destruct (decide (c = d)) as [->|Hne].
  - rewrite (bool_decide_eq_true_2 (d = d)) by done. cbn.
    apply bool_decide_ext. split; [apply prefix_cons_inv_2|apply prefix_cons].
  - rewrite (bool_decide_eq_false_2 (c = d)) by done. cbn.
    apply bool_decide_eq_false_2. by intros ?%prefix_cons_inv_1.
Qed.

Lemma startswith_nil_cons d p : Py.startswith [] (d :: p) = false.
Proof. apply bool_decide_eq_false_2. by intros ?%prefix_nil_inv. Qed.

Lemma startswith_rstrip_char r d :
  Py.isspace d = false →
  Py.startswith (Py.rstrip r) [d] = Py.startswith r [d].
Proof.
  intros Hd. destruct r as [|c r]; [done|].
  destruct (Py.isspace c) eqn:Hc.
  - rewrite startswith_cons, startswith_nil.
    rewrite (bool_decide_eq_false_2 (c = d)) by congruence.
    apply bool_decide_eq_false_2. intros Hp.
    pose proof (rstrip_prefix (c :: r)) as Hr.
    assert ([d] `prefix_of` c :: r) as Hd' by by etrans.
    apply prefix_cons_inv_1 in Hd'. congruence.
  - by rewrite rstrip_cons_nonspace, !startswith_cons, !startswith_nil.
Qed.

(** X9.  Whether a line is comment-like is decided by the characters that
    follow its leading white space: the line is comment-like exactly when
    the first of them is [#] or [*], or is [/] followed at once by [/] or
    [*].  White space at the end of the line plays no part, and the lead
    [*/] adds nothing to the lead [*]. *)
Theorem comment_decided_by_first_characters (l : str) :
  is_comment l = comment_by_first_chars l.
Proof.
  unfold is_comment, comment_by_first_chars, Py.strip.
  destruct (Py.lstrip l) as [|c rest] eqn:E; [done|].
  pose proof (lstrip_head _ _ _ E) as Hc.
  rewrite rstrip_cons_nonspace by done.
  unfold Py.startswith_any, comment_leads. cbn [fmap list_fmap lit
    list_ascii_of_string existsb].
  rewrite !startswith_cons, !startswith_nil.
  change (Py.startswith (Py.rstrip rest) ("/"%char :: []))
    with (Py.startswith (Py.rstrip rest) ["/"%char]).
  rewrite !startswith_rstrip_char by done.
  destruct rest as [|c' rest'].
  - rewrite !startswith_nil_cons.
    by destruct (bool_decide (c = "#"%char)), (bool_decide (c = "*"%char)),
      (bool_decide (c = "/"%char)).
  - rewrite !startswith_cons, !startswith_nil.
    by destruct (bool_decide (c = "#"%char)), (bool_decide (c = "*"%char)),
      (bool_decide (c = "/"%char)), (bool_decide (c' = "/"%char)),
      (bool_decide (c' = "*"%char)).
Qed.

(** ** The extension of any path *)











(** ** Technology detection *)

Example repo_name_examples :
  repo_name (lit "https://github.com/paeb37/pie.git") = lit "pie"
  ∧ repo_name (lit "https://github.com/paeb37/pie") = lit "pie"
  ∧ repo_name (lit "https://github.com/paeb37/pie/") = []
  ∧ repo_name (lit "git@github.com:u/my.github.io") = lit "myhub.io"
  ∧ repo_name (lit "x.g.gitit") = lit "x.git".
Proof. by repeat split. Qed.

Example technologies_of_node_project :
  languages (_identify_technologies (path_exists tree_node_project))
  = {[ lit "Node.js" := detected ]}.
Proof. by vm_compute. Qed.

Lemma mark_technology_fields exists_ cfg ts :
  frameworks (foldl (mark_technology exists_) ts cfg) = frameworks ts
  ∧ dependencies (foldl (mark_technology exists_) ts cfg) = dependencies ts.
Proof.
  revert ts. induction cfg as [|e cfg IH]; intros ts; [done|].
  cbn [foldl]. destruct (IH (mark_technology exists_ ts e)) as [-> ->].
  unfold mark_technology. by destruct (exists_ e.1).
Qed.

Lemma marker_exists_dec (exists_ : str → bool) (cfg : list (str * str)) tech :
  (∃ file, (file, tech) ∈ cfg ∧ exists_ file = true)
  ∨ ¬ (∃ file, (file, tech) ∈ cfg ∧ exists_ file = true).
Proof.
  destruct (decide (Exists (λ e, e.2 = tech ∧ exists_ e.1 = true) cfg)) as [H|H].
  - left. apply Exists_exists in H as ([file tech'] & Hin & Ht & Hx).
    cbn in *. subst. by exists file.
  - right. intros (file & Hin & Hx). apply H, Exists_exists.
    by exists (file, tech).
Qed.

Lemma mark_technology_lookup exists_ cfg ts tech v :
  languages (foldl (mark_technology exists_) ts cfg) !! tech = Some v ↔
  (v = detected ∧ ∃ file, (file, tech) ∈ cfg ∧ exists_ file = true)
  ∨ ((¬ ∃ file, (file, tech) ∈ cfg ∧ exists_ file = true)
     ∧ languages ts !! tech = Some v).
Proof.
  revert ts. induction cfg as [|[file' tech'] cfg IH]; intros ts.
  { cbn. split; [intros H; right; split; [|done]|intros [[_ H]|[_ H]]; [|done]].
    - by intros (? & ?%elem_of_nil & _).
    - by destruct H as (? & ?%elem_of_nil & _). }
  cbn [foldl]. rewrite IH. unfold mark_technology. cbn [fst snd].
  destruct (exists_ file') eqn:Hex; cbn [languages].
  - destruct (decide (tech' = tech)) as [->|Hne].
    + rewrite lookup_insert_eq. split.
      * intros [[-> _]|[_ [= <-]]]; left; (split; [done|]);
          exists file'; (split; [left|done]).
      * intros [[-> _]|[Hno _]].
        -- destruct (marker_exists_dec exists_ cfg tech) as [H|H];
             [by left|by right].
        -- destruct Hno. exists file'. split; [left|done].
    + rewrite lookup_insert_ne by done. split.
      * intros [[-> (f & Hf & Hx)]|[Hno Hl]].
        -- left. split; [done|]. exists f. split; [by right|done].
        -- right. split; [|done]. intros (f & Hf & Hx). apply Hno.
           apply elem_of_cons in Hf as [[= -> ->]|Hf]; [done|]. by exists f.
      * intros [[-> (f & Hf & Hx)]|[Hno Hl]].
        -- left. split; [done|]. exists f. split; [|done].
           by apply elem_of_cons in Hf as [[= -> ->]|Hf].
        -- right. split; [|done]. intros (f & Hf & Hx). apply Hno.
           exists f. split; [by right|done].
  - split.
    + intros [[-> (f & Hf & Hx)]|[Hno Hl]].
      * left. split; [done|]. exists f. split; [by right|done].
      * right. split; [|done]. intros (f & Hf & Hx). apply Hno.
        apply elem_of_cons in Hf as [[= -> ->]|Hf]; [congruence|]. by exists f.
    + intros [[-> (f & Hf & Hx)]|[Hno Hl]].
      * left. split; [done|]. exists f. split; [|done].
        apply elem_of_cons in Hf as [[= -> ->]|Hf]; [congruence|done].
      * right. split; [|done]. intros (f & Hf & Hx). apply Hno.
        exists f. split; [by right|done].
Qed.

(** X12.  Technology detection marks a technology exactly when one of
    its marker files exists directly under the repository path, always
    with the value ["detected"], and never fills [frameworks] or
    [dependencies]; so [Docker] is marked when either of its two markers
    exists, and nothing is marked when no marker exists. *)
Theorem technology_detected_iff_marker_exists (exists_ : str → bool) :
  let tech_stack := _identify_technologies exists_ in
  (∀ tech v,
     languages tech_stack !! tech = Some v ↔
     v = detected ∧ ∃ file, (file, tech) ∈ config_files ∧ exists_ file = true)
  ∧ frameworks tech_stack = ∅
  ∧ dependencies tech_stack = ∅
  ∧ (is_Some (languages tech_stack !! lit "Docker") ↔
     exists_ (lit "Dockerfile") = true
     ∨ exists_ (lit "docker-compose.yml") = true)
  ∧ ((∀ file tech, (file, tech) ∈ config_files → exists_ file = false) →
     languages tech_stack = ∅).
Proof.
  intros tech_stack. subst tech_stack. unfold _identify_technologies.
  assert (Hl : ∀ tech v,
    languages (foldl (mark_technology exists_) (MkTechStack ∅ ∅ ∅) config_files)
      !! tech = Some v ↔
    v = detected ∧ ∃ file, (file, tech) ∈ config_files ∧ exists_ file = true).
  { intros tech v. rewrite mark_technology_lookup. cbn [languages].
    rewrite lookup_empty. split; [|by left].
    by intros [H|[_ H]]. }
  split; [done|].
  destruct (mark_technology_fields exists_ config_files (MkTechStack ∅ ∅ ∅))
    as [-> ->]. split; [done|]. split; [done|]. split.
  - split.
    + intros [v (_ & file & Hf & Hx)%Hl].
      assert (Hf' : (file, lit "Docker")
                    ∈ filter (λ e : str * str, e.2 = lit "Docker") config_files)
        by by apply list_elem_of_filter.
      vm_compute in Hf'.
      apply elem_of_cons in Hf' as [[= ->]|Hf']; [by left|].
      apply elem_of_cons in Hf' as [[= ->]|Hf']; [by right|].
      by apply elem_of_nil in Hf'.
    + intros [Hx|Hx]; exists detected; apply Hl; (split; [done|]).
      * exists (lit "Dockerfile"). split; [|done]. unfold config_files. find_elem.
      * exists (lit "docker-compose.yml"). split; [|done].
        unfold config_files. find_elem.
  - intros Hnone. apply map_eq. intros tech. rewrite lookup_empty.
    destruct (_ !! tech) as [v|] eqn:E; [|done].
    apply Hl in E as (_ & file & Hf & Hx). by rewrite (Hnone _ _ Hf) in Hx.
Qed.




(** ** The repository name *)

Lemma split_go_notin c cur s :
  c ∉ s → split_go c cur s = [reverse cur ++ s].
Proof.
  revert cur. induction s as [|x s IH]; intros cur Hs; cbn [split_go].
  - by rewrite (right_id_L [] (++)).
  - apply not_elem_of_cons in Hs as [Hx Hs].
    rewrite decide_False by done. rewrite IH by done.
    by rewrite reverse_cons, <-(assoc_L (++)).
Qed.

Lemma split_go_last c cur pre name :
  c ∉ name → last (split_go c cur (pre ++ c :: name)) = Some name.
Proof.
  intros Hn. revert cur. induction pre as [|x pre IH]; intros cur; cbn [app split_go].
  - rewrite decide_True by done. by rewrite split_go_notin.
  - destruct (decide (x = c)); [|apply IH]. by rewrite last_cons, IH.
Qed.

Lemma last_split_cases (url : str) :
  ∃ name, last (split url sep) = Some name ∧ (sep ∉ name)
          ∧ name `suffix_of` url.
Proof.
  unfold split. destruct (decide (sep ∈ url)) as [Hin|Hnin].
  - destruct (last_occurrence _ _ Hin) as (pre & name & -> & Hn).
    exists name. rewrite split_go_last by done.
    repeat split; [done|]. by exists (pre ++ [sep]); rewrite <-(assoc_L (++)).
  - exists url. by rewrite split_go_notin.
Qed.

Lemma replace_go_sublist old k s : replace_go old [] k s `sublist_of` s.
Proof.
  revert k. induction s as [|x s IH]; intros k; [done|]. cbn [replace_go].
  destruct k as [|k]; [|by apply sublist_cons].
  destruct (Py.startswith (x :: s) old); [cbn [app]; by apply sublist_cons|].
  by apply sublist_skip.
Qed.

Lemma startswith_git_cons x s : extsep ≠ x → Py.startswith (x :: s) git = false.
Proof.
  intros Hx. change git with (extsep :: lit "git").
  by rewrite startswith_cons, (bool_decide_eq_false_2 (x = extsep)).
Qed.

Lemma replace_git_no_dot s : extsep ∉ s → replace s git [] = s.
Proof.
  unfold replace. induction s as [|x s IH]; intros Hs; [done|].
  apply not_elem_of_cons in Hs as [Hx Hs]. cbn [replace_go].
  by rewrite startswith_git_cons, IH.
Qed.

Lemma replace_git_suffix s : extsep ∉ s → replace (s ++ git) git [] = s.
Proof.
  unfold replace. induction s as [|x s IH]; intros Hs; [done|].
  apply not_elem_of_cons in Hs as [Hx Hs]. cbn [app replace_go].
  by rewrite startswith_git_cons, IH.
Qed.

(** X14.  For a repository URL whose last path segment holds no dot but
    that of a final [.git], the repository name is that segment without
    the [.git]: [pie] for [.../pie.git] as for [.../pie]. *)
Theorem repo_name_of_plain_url (pre name : str)
    (Hsep : sep ∉ name) (Hdot : extsep ∉ name) :
  repo_name (pre ++ sep :: name ++ git) = name
  ∧ repo_name (pre ++ sep :: name) = name
  ∧ repo_name (name ++ git) = name.
Proof.
  assert (Hg : sep ∉ name ++ git).
  { apply not_elem_of_app. split; [done|]. by apply (bool_decide_eq_false_1 _). }
  unfold repo_name, split. rewrite !split_go_last by done.
  rewrite split_go_notin by done. cbn [from_option id last].
  change (reverse [] ++ name ++ git) with (name ++ git).
  by rewrite !replace_git_suffix, replace_git_no_dot.
Qed.

Lemma repo_name_of_plain_url_witness :
  repo_name (lit "https://github.com/paeb37/pie.git") = lit "pie".
Proof.
  assert (Hsep : sep ∉ lit "pie") by (apply (bool_decide_eq_false_1 _); reflexivity).
  assert (Hdot : extsep ∉ lit "pie") by (apply (bool_decide_eq_false_1 _); reflexivity).
  exact (proj1 (repo_name_of_plain_url (lit "https://github.com/paeb37")
                  (lit "pie") Hsep Hdot)).
Defined.

(** X15.  The repository name never contains a separator and is made of
    characters of the URL in their order; it is empty for a URL that
    ends in a separator, and, occurrences of [.git] being removed in one
    pass from the left, it can still contain [.git]. *)
Theorem repo_name_has_no_separator :
  (∀ repo_url, (sep ∉ repo_name repo_url)
               ∧ repo_name repo_url `sublist_of` repo_url)
  ∧ (∀ pre, repo_name (pre ++ [sep]) = [])
  ∧ Py.contains git (repo_name (lit "x.g.gitit")) = true.
Proof.
  split; [|split; [|reflexivity]].
  - intros url. unfold repo_name.
    destruct (last_split_cases url) as (name & -> & Hn & Hsuf). cbn.
    pose proof (replace_go_sublist git 0 name) as Hsub. split.
    + intros Hin. apply Hn. by eapply elem_of_sublist.
    + etrans; [done|]. destruct Hsuf as [k ->]. by apply sublist_inserts_l.
  - intros pre. unfold repo_name, split.
    by rewrite split_go_last by apply not_elem_of_nil.
Qed.

(** ** The directory listing of the report *)

Example format_of_two_directories :
  _format_directory_structure
    (<[lit "src" := MkDirInfo 12 2]> (<[lit "docs" := MkDirInfo 3 0]> ∅))
  = lit "- **docs**" ++ newline :: lit "  - Files: 3" ++ newline
    :: lit "  - Subdirectories: 0" ++ newline
    :: lit "- **src**" ++ newline :: lit "  - Files: 12" ++ newline
    :: lit "  - Subdirectories: 2" ++ [newline].
Proof. by vm_compute. Qed.

Lemma str_leb_total a b : str_leb a b = true ∨ str_leb b a = true.
Proof.
  revert b. induction a as [|x a IH]; intros [|y b]; cbn [str_leb]; auto.
  destruct (Nat.ltb_spec (nat_of_ascii x) (nat_of_ascii y)),
    (Nat.ltb_spec (nat_of_ascii y) (nat_of_ascii x)); auto.
Qed.

Lemma str_leb_trans a b c :
  str_leb a b = true → str_leb b c = true → str_leb a c = true.
Proof.
  revert b c. induction a as [|x a IH]; intros [|y b] [|z c]; cbn [str_leb];
    try done.
  destruct (Nat.ltb_spec (nat_of_ascii x) (nat_of_ascii y)),
    (Nat.ltb_spec (nat_of_ascii y) (nat_of_ascii z)),
    (Nat.ltb_spec (nat_of_ascii x) (nat_of_ascii z)); try done; try lia;
    destruct (Nat.ltb_spec (nat_of_ascii y) (nat_of_ascii x)); try done; try lia;
    destruct (Nat.ltb_spec (nat_of_ascii z) (nat_of_ascii y)); try done; try lia;
    destruct (Nat.ltb_spec (nat_of_ascii z) (nat_of_ascii x)); try done; try lia.
  apply IH.
Qed.

Lemma key_le_total : Total key_le.
Proof.
  intros x y. unfold key_le.
  destruct (str_leb_total x.1 y.1) as [->| ->]; [by left|by right].
Qed.

Lemma key_le_trans : Transitive key_le.
Proof.
  intros x y z. unfold key_le. intros H1%Is_true_true H2%Is_true_true.
  apply Is_true_true. by eapply str_leb_trans.
Qed.

Lemma foldl_render items acc :
  foldl (λ result item, result ++ render_entry item) acc items
  = acc ++ concat (render_entry <$> items).
Proof.
  revert acc. induction items as [|item items IH]; intros acc.
  - cbn [foldl fmap list_fmap concat]. by rewrite (right_id_L [] (++)).
  - cbn [foldl]. rewrite IH, fmap_cons. cbn [concat].
    by rewrite <-(assoc_L (++)).
Qed.

(** X16.  The directory listing renders each directory of the summary
    exactly once, in ascending order of the paths, three lines for each;
    it is empty exactly when the summary is. *)
Theorem directory_listing_is_sorted_and_complete
    (directories : gmap str DirInfo) :
  ∃ items,
    items ≡ₚ map_to_list directories
    ∧ NoDup items.*1
    ∧ StronglySorted key_le items
    ∧ _format_directory_structure directories
      = concat (render_entry <$> items)
    ∧ (_format_directory_structure directories = [] ↔ directories = ∅).
Proof.
  exists (sorted_items directories). unfold _format_directory_structure.
  assert (Hp : sorted_items directories ≡ₚ map_to_list directories)
    by apply merge_sort_Permutation.
  split; [done|]. split.
  { rewrite Hp. apply NoDup_fst_map_to_list. }
  split; [apply (@StronglySorted_merge_sort _ key_le _ key_le_trans key_le_total)|].
  rewrite foldl_render. split; [done|]. cbn [app]. split.
  - intros H. apply map_to_list_empty_iff.
    destruct (sorted_items directories) as [|item items] eqn:E.
    + symmetry in Hp. by apply Permutation_nil_r in Hp.
    + rewrite fmap_cons in H. cbn in H. discriminate H.
  - intros ->. by vm_compute.
Qed.
